(** * TimeInterpolator: an elastic media clock driven by FIFO writes

    A shallow embedding of
    [frameworks/av/media/libstagefright/TimeInterpolator.cpp] and of its
    header [include/TimeInterpolator.h].

    - [int64_t] values are integers of [Z]; every sum, difference and
      product of the source is followed by the two's-complement
      wrap-around [wrap64].
    - [double] values are the binary64 primitive floats of the kernel; the
      conversions between [int64_t] and [double] are written out below.
    - The object is a record; a method is a computation of the monad [M],
      which threads the object together with the monotonic system clock.
    - The mutex and the log output do not change any member and are left
      out: a method runs from its first to its last line without
      interleaving. *)

From Stdlib Require Import String.
From Stdlib Require Import ZArith Bool List Lia.
From Stdlib Require Uint63.
From Stdlib Require Import Floats.
Import ListNotations.

Local Open Scope Z_scope.

(** ** 64-bit signed integers *)

Module Int64.

Definition modulus : Z := 18446744073709551616.
Definition half_modulus : Z := 9223372036854775808.
Definition min_signed : Z := -9223372036854775808.
Definition max_signed : Z := 9223372036854775807.

(** The representative of [z] in the range of [int64_t]. *)
Definition wrap64 (z : Z) : Z :=
  (z + half_modulus) mod modulus - half_modulus.

Definition fits (z : Z) : Prop := min_signed <= z <= max_signed.

Definition add (a b : Z) : Z := wrap64 (a + b).
Definition sub (a b : Z) : Z := wrap64 (a - b).
Definition mul (a b : Z) : Z := wrap64 (a * b).
(** C++ division truncates toward zero.  The source divides by the
    constants 2, 4 and 1000 only, and such a quotient of a value in
    range is in range. *)
Definition div (a b : Z) : Z := Z.quot a b.

End Int64.

(** ** Conversions between [int64_t] and [double] *)

Module Double.

Local Open Scope float_scope.

(** A magnitude below [2^63], rounded to the nearest double (ties to
    even), which is what the primitive [of_uint63] does. *)
Definition of_magnitude (z : Z) : float :=
  PrimFloat.of_uint63 (Uint63.of_Z z).

(** [double(x)] for [x : int64_t]: the nearest double, ties to even.
    Rounding to nearest is symmetric, so a negative value is the opposite
    of its rounded magnitude; [-2^63] is a double itself. *)
Definition of_int64 (z : Z) : float :=
  if (z =? Int64.min_signed)%Z then (- 9223372036854775808)%float
  else if (z <? 0)%Z then (- of_magnitude (- z))%float
  else of_magnitude z.

(** The integer part of a finite double, fraction discarded. *)
Definition truncate (s : bool) (m : positive) (e : Z) : Z :=
  let a := if (0 <=? e)%Z then Z.shiftl (Zpos m) e
           else Z.shiftr (Zpos m) (- e) in
  if s then (- a)%Z else a.

(** [int64_t(x)] for [x : double]: truncation toward zero.  C++ leaves
    the conversion of a value outside the range of [int64_t] undefined;
    the model fixes what the ARM targets of this code produce there:
    saturation, and zero for a NaN. *)
Definition to_int64 (x : float) : Z :=
  match Prim2SF x with
  | S754_zero _ => 0%Z
  | S754_nan => 0%Z
  | S754_infinity s => if s then Int64.min_signed else Int64.max_signed
  | S754_finite s m e =>
      let v := truncate s m e in
      if (v <? Int64.min_signed)%Z then Int64.min_signed
      else if (Int64.max_signed <? v)%Z then Int64.max_signed
      else v
  end.

End Double.

(** ** The object *)

(** [TimeInterpolator::state_t] *)
Inductive state_t : Set := STOPPED | ROLLING | PAUSED.

(** [TimeInterpolator::input_t], the reason given for a state change. *)
Inductive input_t : Set :=
  STOP | SEEK | PAUSE | POST_BUFFER | ERR_UNDERRUN | ERR_OVERRUN.

Definition state_eqb (a b : state_t) : bool :=
  match a, b with
  | STOPPED, STOPPED | ROLLING, ROLLING | PAUSED, PAUSED => true
  | _, _ => false
  end.

(** The data members of [class TimeInterpolator], the mutex apart. *)
Record TimeInterpolator : Set := mkTI {
  m_state : state_t;
  m_Tf : float;
  m_t0 : Z;
  m_pos0 : Z;
  m_read : Z;
  m_queued : Z;
  m_latency : Z;
  m_last : Z;
  m_now_last : Z
}.

Definition set_m_state v (o : TimeInterpolator) :=
  mkTI v (m_Tf o) (m_t0 o) (m_pos0 o) (m_read o) (m_queued o)
       (m_latency o) (m_last o) (m_now_last o).
Definition set_m_Tf v (o : TimeInterpolator) :=
  mkTI (m_state o) v (m_t0 o) (m_pos0 o) (m_read o) (m_queued o)
       (m_latency o) (m_last o) (m_now_last o).
Definition set_m_t0 v (o : TimeInterpolator) :=
  mkTI (m_state o) (m_Tf o) v (m_pos0 o) (m_read o) (m_queued o)
       (m_latency o) (m_last o) (m_now_last o).
Definition set_m_pos0 v (o : TimeInterpolator) :=
  mkTI (m_state o) (m_Tf o) (m_t0 o) v (m_read o) (m_queued o)
       (m_latency o) (m_last o) (m_now_last o).
Definition set_m_read v (o : TimeInterpolator) :=
  mkTI (m_state o) (m_Tf o) (m_t0 o) (m_pos0 o) v (m_queued o)
       (m_latency o) (m_last o) (m_now_last o).
Definition set_m_queued v (o : TimeInterpolator) :=
  mkTI (m_state o) (m_Tf o) (m_t0 o) (m_pos0 o) (m_read o) v
       (m_latency o) (m_last o) (m_now_last o).
Definition set_m_latency v (o : TimeInterpolator) :=
  mkTI (m_state o) (m_Tf o) (m_t0 o) (m_pos0 o) (m_read o) (m_queued o)
       v (m_last o) (m_now_last o).
Definition set_m_last v (o : TimeInterpolator) :=
  mkTI (m_state o) (m_Tf o) (m_t0 o) (m_pos0 o) (m_read o) (m_queued o)
       (m_latency o) v (m_now_last o).
Definition set_m_now_last v (o : TimeInterpolator) :=
  mkTI (m_state o) (m_Tf o) (m_t0 o) (m_pos0 o) (m_read o) (m_queued o)
       (m_latency o) (m_last o) v.

(** ** The system clock *)

(** [struct timespec] *)
Record timespec : Set := mkTimespec { tv_sec : Z; tv_nsec : Z }.

(** [CLOCK_MONOTONIC] as the program sees it: the value each successive
    call of [clock_gettime] returns, and the number of calls made so far. *)
Record Clock : Type := mkClock { samples : nat -> timespec; calls : nat }.

(** ** The monad of the methods *)

Record World : Type := mkWorld { self : TimeInterpolator; clock : Clock }.

Definition M (A : Type) : Type := World -> A * World.

Definition ret {A : Type} (a : A) : M A := fun w => (a, w).

Definition bind {A B : Type} (m : M A) (k : A -> M B) : M B :=
  fun w => k (fst (m w)) (snd (m w)).

Declare Scope ti_scope.
Delimit Scope ti_scope with ti.
Notation "x <- m ;; k" := (bind m (fun x => k))
  (at level 61, m at next level, right associativity) : ti_scope.
Notation "m ;; k" := (bind m (fun _ => k))
  (at level 61, right associativity) : ti_scope.
Local Open Scope ti_scope.

(** Reading a member, and assigning to the object. *)
Definition get {A : Type} (field : TimeInterpolator -> A) : M A :=
  fun w => (field (self w), w).

Definition assign (update : TimeInterpolator -> TimeInterpolator) : M unit :=
  fun w => (tt, mkWorld (update (self w)) (clock w)).

Definition when (b : bool) (m : M unit) : M unit :=
  if b then m else ret tt.

(** The object a method leaves behind, and the value it returns. *)
Definition exec {A : Type} (m : M A) (w : World) : TimeInterpolator :=
  self (snd (m w)).
Definition result {A : Type} (m : M A) (w : World) : A := fst (m w).

Definition clock_gettime : M timespec :=
  fun w =>
    (samples (clock w) (calls (clock w)),
     mkWorld (self w) (mkClock (samples (clock w)) (S (calls (clock w))))).

(** ** The methods *)

Definition DEFAULT_AUDIO_LATENCY : Z := 20000 * 4 * 2.

(** [TimeInterpolator::get_system_usecs] *)
Definition get_system_usecs : M Z :=
  tv <- clock_gettime ;;
  ret (Int64.add (Int64.mul (tv_sec tv) 1000000)
                 (Int64.div (tv_nsec tv) 1000)).

(** [TimeInterpolator::set_latency] *)
Definition set_latency (lat_usecs : Z) : M unit :=
  if 0 <? lat_usecs then assign (set_m_latency lat_usecs)
  else assign (set_m_latency DEFAULT_AUDIO_LATENCY).

(** [TimeInterpolator::set_state]; the error-checking block only logs. *)
Definition set_state (s : state_t) (i : input_t) : M unit :=
  cur <- get m_state ;;
  if state_eqb cur s then ret tt
  else assign (set_m_state s).

(** [TimeInterpolator::read_pointer] and [usecs_queued], from the header. *)
Definition read_pointer : M Z :=
  r <- get m_read ;; q <- get m_queued ;; ret (Int64.add r q).

Definition usecs_queued : M Z := get m_queued.

(** [TimeInterpolator::seek] *)
Definition seek (media_time : Z) : M unit :=
  st <- get m_state ;;
  if state_eqb st STOPPED || state_eqb st PAUSED then
    assign (set_m_pos0 media_time) ;;
    assign (set_m_read media_time) ;;
    assign (set_m_queued 0) ;;
    now <- get_system_usecs ;;
    assign (set_m_t0 now) ;;
    assign (set_m_Tf 0%float) ;;
    assign (set_m_last media_time) ;;
    assign (set_m_now_last 0)
  else
    assign (set_m_read media_time) ;;
    rd <- get m_read ;;
    lat <- get m_latency ;;
    assign (set_m_pos0 (Int64.sub rd lat)) ;;
    assign (set_m_queued 0) ;;
    now <- get_system_usecs ;;
    assign (set_m_t0 now) ;;
    assign (set_m_Tf 1%float) ;;
    p0 <- get m_pos0 ;;
    assign (set_m_last p0) ;;
    assign (set_m_now_last 0).

(** [TimeInterpolator::pause]; [seek_to] is the local of that name. *)
Definition pause (flushing_fifo : bool) : M unit :=
  seek_to <-
    (if flushing_fifo then
       set_state STOPPED STOP ;;
       rd <- get m_read ;;
       q <- get m_queued ;;
       ret (Int64.add rd q)
     else
       st <- get m_state ;;
       if state_eqb st ROLLING then
         set_state PAUSED PAUSE ;;
         rd <- get m_read ;;
         q <- get m_queued ;;
         assign (set_m_read (Int64.add rd q)) ;;
         l <- get m_last ;;
         assign (set_m_pos0 l) ;;
         now <- get_system_usecs ;;
         assign (set_m_t0 now) ;;
         assign (set_m_queued 0) ;;
         ret (-1)
       else ret (-1)) ;;
  when (0 <=? seek_to) (seek seek_to).

(** [TimeInterpolator::stop] *)
Definition stop : M unit := pause true.

(** [TimeInterpolator::reset] *)
Definition reset : M unit := stop ;; seek 0.

(** [TimeInterpolator::resume] *)
Definition resume : M unit :=
  now <- get_system_usecs ;;
  assign (set_m_t0 now) ;;
  assign (set_m_Tf 1%float).

(** [TimeInterpolator::err_underrun] *)
Definition err_underrun : M unit :=
  assign (set_m_Tf 0%float) ;;
  rd <- get m_read ;;
  q <- get m_queued ;;
  assign (set_m_read (Int64.add rd q)) ;;
  rd' <- get m_read ;;
  assign (set_m_pos0 rd') ;;
  assign (set_m_queued 0) ;;
  set_state STOPPED ERR_UNDERRUN.

(** [TimeInterpolator::err_overrun]; the local [now] is read and unused. *)
Definition err_overrun : M unit :=
  now <- get_system_usecs ;;
  st <- get m_state ;;
  when (state_eqb st ROLLING)
    (rd <- get m_read ;;
     lat <- get m_latency ;;
     assign (set_m_pos0 (Int64.sub rd lat)) ;;
     t <- get_system_usecs ;;
     assign (set_m_t0 t)).

(** [TimeInterpolator::forcibly_update_read_pointer] *)
Definition forcibly_update_read_pointer (rp : Z) : M unit :=
  q <- get m_queued ;;
  assign (set_m_read (Int64.sub rp q)).

(** [TimeInterpolator::get_stream_usecs] *)
Definition get_stream_usecs : M Z :=
  now <- get_system_usecs ;;
  st <- get m_state ;;
  if state_eqb st PAUSED then get m_pos0
  else
    Tf <- get m_Tf ;;
    t0 <- get m_t0 ;;
    let dt := (Tf * Double.of_int64 (Int64.sub now t0))%float in
    let dt := if (dt <? 0)%float then 0%float else dt in
    p0 <- get m_pos0 ;;
    let t_media := Int64.add p0 (Double.to_int64 dt) in
    rp <- read_pointer ;;
    t_media <-
      (if rp <=? t_media then
         st <- get m_state ;;
         if state_eqb st ROLLING then
           rp <- read_pointer ;;
           err_underrun ;;
           ret rp
         else ret t_media
       else ret t_media) ;;
    assign (set_m_last t_media) ;;
    assign (set_m_now_last now) ;;
    ret t_media.

(** [TimeInterpolator::post_buffer], the block under
    [if (m_state == STOPPED)], which ends in [goto end]. *)
Definition post_buffer_cold_start (frame_usecs : Z) : M unit :=
  lat <- get m_latency ;;
  let initial_offset := Int64.div lat 2 in
  now <- get_system_usecs ;;
  assign (set_m_t0 now) ;;
  set_state ROLLING POST_BUFFER ;;
  rd <- get m_read ;;
  assign (set_m_read (Int64.add rd frame_usecs)) ;;
  let initial_offset :=
    if initial_offset <? 40000 then 40000 else initial_offset in
  rd <- get m_read ;;
  assign (set_m_pos0 (Int64.sub rd initial_offset)) ;;
  assign (set_m_queued 0) ;;
  assign (set_m_Tf 1%float).

(** [TimeInterpolator::post_buffer], the two tests that follow the
    feedback update: the clamp of [m_Tf] and the underrun check. *)
Definition post_buffer_clamp_and_detect : M unit :=
  Tf <- get m_Tf ;;
  (if (2 <=? Tf)%float then
     assign (set_m_Tf 2%float) ;;
     err_overrun
   else if (Tf <? 0.5)%float then assign (set_m_Tf 0.5%float)
   else ret tt) ;;
  p0 <- get m_pos0 ;;
  rd <- get m_read ;;
  when (rd <=? p0) err_underrun.

(** [TimeInterpolator::post_buffer], from [t1 = get_system_usecs()] to the
    label [end]. *)
Definition post_buffer_main (set_Tf_to_unity : bool) (frame_usecs : Z)
  : M unit :=
  t1 <- get_system_usecs ;;
  t0 <- get m_t0 ;;
  let dt := Int64.sub t1 t0 in
  st <- get m_state ;;
  let aggregate_buffers :=
    state_eqb st ROLLING && (dt <? Int64.div frame_usecs 4) in
  if negb aggregate_buffers then
    rd <- get m_read ;;
    q <- get m_queued ;;
    assign (set_m_read (Int64.add rd q)) ;;
    p0 <- get m_pos0 ;;
    Tf <- get m_Tf ;;
    let pos1 :=
      Double.to_int64 (Double.of_int64 p0 + Tf * Double.of_int64 dt)%float in
    rd <- get m_read ;;
    lat <- get m_latency ;;
    let pos1_desired := Int64.sub rd lat in
    let e := Double.of_int64 (Int64.sub pos1 pos1_desired) in
    (if set_Tf_to_unity then assign (set_m_Tf 1%float)
     else assign (set_m_Tf (1 - e / Double.of_int64 lat)%float)) ;;
    assign (set_m_pos0 pos1) ;;
    assign (set_m_t0 t1) ;;
    assign (set_m_queued frame_usecs) ;;
    post_buffer_clamp_and_detect
  else
    q <- get m_queued ;;
    assign (set_m_queued (Int64.add q frame_usecs)).

(** [TimeInterpolator::post_buffer] *)
Definition post_buffer (frame_usecs : Z) : M unit :=
  st <- get m_state ;;
  if negb (state_eqb st ROLLING) then
    set_Tf_to_unity <-
      (if state_eqb st PAUSED then
         set_state ROLLING POST_BUFFER ;;
         ret true
       else ret false) ;;
    st <- get m_state ;;
    if state_eqb st STOPPED then post_buffer_cold_start frame_usecs
    else post_buffer_main set_Tf_to_unity frame_usecs
  else post_buffer_main false frame_usecs.

(** [TimeInterpolator::TimeInterpolator]; it runs on the members as the
    allocation left them. *)
Definition constructor : M unit :=
  assign (set_m_state STOPPED) ;;
  assign (set_m_latency DEFAULT_AUDIO_LATENCY) ;;
  seek 0.

(** ** Simulated clocks and the scenarios of the specification *)

Definition usecs (t : Z) : timespec := mkTimespec 0 (t * 1000).

(** The clock that returns the wall times of [l] in turn, then the last
    one for ever ([dflt] when [l] is empty). *)
Definition clock_of (dflt : Z) (l : list Z) : Clock :=
  mkClock (fun n => usecs (nth n l (last l dflt))) 0.

Definition raw0 : TimeInterpolator := mkTI STOPPED 0%float 0 0 0 0 0 0 0.

Definition S1 : M unit :=
  constructor ;; set_latency 100000 ;; post_buffer 20000.
Definition S2 : M unit := S1 ;; post_buffer 20000.


(** The value the next call of [get_system_usecs] returns, and the world
    after that call. *)
Definition now (w : World) : Z := result get_system_usecs w.
Definition after_clock_read (w : World) : World := snd (get_system_usecs w).

(** [n] successive calls of [get_stream_usecs], the values in order. *)
Fixpoint poll_stream_usecs (n : nat) : M (list Z) :=
  match n with
  | O => ret []
  | S k =>
      t <- get_stream_usecs ;;
      ts <- poll_stream_usecs k ;;
      ret (t :: ts)
  end.

(** The world after S1, then ten seconds without a post (scenario S4). *)
Definition S4_world : World :=
  snd (S1 (mkWorld raw0 (clock_of 0 [0; 0; 10000000]))).

(** The world after S1 when the next post comes 100 ms later. *)
Definition late_post_world : World :=
  snd (S1 (mkWorld raw0 (clock_of 0 [0; 0; 100000]))).

(** The world after S1 when the next post comes 20 ms later (scenario
    S2 before its second post). *)
Definition S2_world : World :=
  snd (S1 (mkWorld raw0 (clock_of 0 [0; 0; 20000]))).

(** ** Histories of an object *)

(** A call of a public method, with its arguments. *)
Inductive call : Set :=
| call_set_latency (lat_usecs : Z)
| call_seek (media_time : Z)
| call_post_buffer (frame_usecs : Z)
| call_get_stream_usecs
| call_pause (flushing_fifo : bool)
| call_stop
| call_resume
| call_reset
| call_usecs_queued
| call_read_pointer
| call_forcibly_update_read_pointer (rp : Z).

Definition run_call (c : call) : M unit :=
  match c with
  | call_set_latency lat_usecs => set_latency lat_usecs
  | call_seek media_time => seek media_time
  | call_post_buffer frame_usecs => post_buffer frame_usecs
  | call_get_stream_usecs => get_stream_usecs ;; ret tt
  | call_pause flushing_fifo => pause flushing_fifo
  | call_stop => stop
  | call_resume => resume
  | call_reset => reset
  | call_usecs_queued => usecs_queued ;; ret tt
  | call_read_pointer => read_pointer ;; ret tt
  | call_forcibly_update_read_pointer rp => forcibly_update_read_pointer rp
  end.

Fixpoint run_calls (cs : list call) : M unit :=
  match cs with
  | [] => ret tt
  | c :: cs' => run_call c ;; run_calls cs'
  end.

(** The argument of [set_latency] is an [int64_t]. *)
Definition call_fits (c : call) : Prop :=
  match c with
  | call_set_latency lat_usecs => lat_usecs <= Int64.max_signed
  | _ => True
  end.

(** The closed interval the clamp of [post_buffer] keeps [Tf] in. *)
Definition Tf_in_range (t : float) : Prop :=
  (0.5 <=? t)%float = true /\ (t <=? 2)%float = true.

(** What every method keeps: a positive latency, and a time factor that is
    zero (time stands still) or within the clamp. *)
Definition well_kept (o : TimeInterpolator) : Prop :=
  0 < m_latency o <= Int64.max_signed /\
  (m_Tf o = 0%float \/ Tf_in_range (m_Tf o)).

(** A ROLLING object 300 ms behind its ideal position: the next update
    computes a time factor of 3 (scenario S6). *)
Definition S6_world : World :=
  mkWorld (mkTI ROLLING 1%float 0 (-300000) 0 20000 100000 0 0)
          (clock_of 0 [20000; 20001; 20002]).

(** A PAUSED object that is resumed by a post 20 ms later (scenario S5). *)
Definition S5_world : World :=
  mkWorld (mkTI PAUSED 1%float 0 1000000 1500000 0 100000 1000000 0)
          (clock_of 0 [20000]).

(** A ROLLING object at a time factor of one, read 10 and 25 us after
    its epoch. *)
Definition unity_world : World :=
  mkWorld (mkTI ROLLING 1%float 0 0 100000 0 100000 0 0)
          (clock_of 0 [10; 25]).

(** ** Vocabulary of the statements *)

(** Whether [post_buffer(frame_usecs)] takes the aggregation path: the
    object is ROLLING once the start-up logic has run, that is, it was not
    STOPPED, and the clock is less than a quarter of the frame past
    [t0]. *)
Definition aggregates (frame_usecs : Z) (w : World) : bool :=
  negb (state_eqb (m_state (self w)) STOPPED) &&
  (Int64.sub (now w) (m_t0 (self w)) <? Int64.div frame_usecs 4).


(** The projected stream time in the words of the specification (4.3):
    the wall-clock difference clamped to zero, scaled by [Tf], truncated
    and added to [pos0].  [get_stream_usecs] clamps the scaled product
    instead; [projected_time_is_t_media] below relates the two. *)
Definition projected_time (t : Z) (o : TimeInterpolator) : Z :=
  Int64.add (m_pos0 o)
    (Double.to_int64
       (m_Tf o * Double.of_int64 (Z.max (Int64.sub t (m_t0 o)) 0))%float).

(** [t_media] as [get_stream_usecs] computes it before the underrun test. *)
Definition t_media_of (t : Z) (o : TimeInterpolator) : Z :=
  let dt := (m_Tf o * Double.of_int64 (Int64.sub t (m_t0 o)))%float in
  let dt := if (dt <? 0)%float then 0%float else dt in
  Int64.add (m_pos0 o) (Double.to_int64 dt).

(** A double carries the sign [s], or is a NaN. *)
Definition sf_signed (s : bool) (x : spec_float) : Prop :=
  match x with
  | S754_nan => True
  | S754_zero s' | S754_infinity s' | S754_finite s' _ _ => s' = s
  end.

(** A double is a number, possibly infinite. *)
Definition sf_number (x : spec_float) : Prop :=
  match x with
  | S754_nan => False
  | _ => True
  end.

(** A double is finite and not zero. *)
Definition sf_finite_nonzero (x : spec_float) : Prop :=
  match x with
  | S754_finite _ _ _ => True
  | _ => False
  end.

(** A double is a zero or a NaN. *)
Definition sf_null (x : spec_float) : Prop :=
  match x with
  | S754_zero _ | S754_nan => True
  | _ => False
  end.

(** ** The helper of the header and the checks of [set_state] *)

(** The quotient of two [int64_t] in C++.  A division by zero, and the
    quotient of [INT64_MIN] by -1, are undefined: [None]. *)
Definition checked_div (a b : Z) : option Z :=
  if b =? 0 then None
  else if (a =? Int64.min_signed) && (b =? -1) then None
  else Some (Z.quot a b).

(** [TimeInterpolator::bytes_to_usecs], the inline function of the
    header: [(bytes / frame_size) * 1000000 / sample_rate]. *)
Definition bytes_to_usecs (bytes frame_size sample_rate : Z) : option Z :=
  match checked_div bytes frame_size with
  | None => None
  | Some frames => checked_div (Int64.mul frames 1000000) sample_rate
  end.

(** The error-checking block of [TimeInterpolator::set_state]: the lines
    it writes to the error log when the object in state [cur] is asked to
    go to [s] for the reason [i], in order.  (The block is skipped when
    [cur] is [s] already.) *)
Definition set_state_errors (cur s : state_t) (i : input_t)
  : list String.string :=
  let is_input (a b : input_t) : bool :=
    match a, b with
    | STOP, STOP | SEEK, SEEK | PAUSE, PAUSE | POST_BUFFER, POST_BUFFER
    | ERR_UNDERRUN, ERR_UNDERRUN | ERR_OVERRUN, ERR_OVERRUN => true
    | _, _ => false
    end in
  let log (b : bool) (msg : String.string) : list String.string :=
    if b then [msg] else [] in
  if state_eqb cur s then []
  else
    match cur with
    | STOPPED =>
        log (state_eqb s ROLLING && negb (is_input i POST_BUFFER))
            "TimeInterpolator state should only change for POST_BUFFER"%string
        ++ log (negb (state_eqb s ROLLING))
            "TimeInterpolator this state should not be reachable."%string
    | ROLLING =>
        log (state_eqb s PAUSED && negb (is_input i PAUSE))
            "TimeInterpolator state should only change for PAUSE"%string
        ++ log (state_eqb s STOPPED && negb (is_input i STOP)
                && negb (is_input i ERR_UNDERRUN))
            "TimeInterpolator state should only change for STOP or ERR_UNDERRUN"%string
        ++ log (negb (state_eqb s PAUSED) && negb (state_eqb s STOPPED))
            "TimeInterpolator this state should not be reachable."%string
    | PAUSED =>
        log (state_eqb s ROLLING && negb (is_input i POST_BUFFER))
            "TimeInterpolator state should only change for POST_BUFFER"%string
        ++ log (state_eqb s STOPPED && negb (is_input i STOP)
                && negb (is_input i SEEK))
            "TimeInterpolator state should only change for STOP or SEEK"%string
        ++ log (negb (state_eqb s ROLLING) && negb (state_eqb s STOPPED))
            "TimeInterpolator this state shoulud not be reachable"%string
    end.

(** The edges of the state chart that [set_state] accepts in silence. *)
Inductive legal_transition : state_t -> input_t -> state_t -> Prop :=
| legal_start : legal_transition STOPPED POST_BUFFER ROLLING
| legal_pause : legal_transition ROLLING PAUSE PAUSED
| legal_stop_rolling : legal_transition ROLLING STOP STOPPED
| legal_underrun : legal_transition ROLLING ERR_UNDERRUN STOPPED
| legal_restart : legal_transition PAUSED POST_BUFFER ROLLING
| legal_stop_paused : legal_transition PAUSED STOP STOPPED
| legal_seek_paused : legal_transition PAUSED SEEK STOPPED.

(** ** Accounting of the media posted *)

(** The read pointer a history ought to end with: the last position the
    object was sent to ([seek], [reset], [forcibly_update_read_pointer])
    plus everything posted since. *)
Definition account (a : Z) (c : call) : Z :=
  match c with
  | call_post_buffer frame_usecs => a + frame_usecs
  | call_seek media_time => media_time
  | call_reset => 0
  | call_forcibly_update_read_pointer rp => rp
  | _ => a
  end.

(** The calls the accounting follows: all but a flushing pause. *)
Definition keeps_account (c : call) : Prop :=
  match c with
  | call_pause true | call_stop => False
  | _ => True
  end.

(** An object whose read pointer stands at [a] (in [int64_t]), with
    nothing queued while it is STOPPED. *)
Definition accounted (a : Z) (o : TimeInterpolator) : Prop :=
  Int64.add (m_read o) (m_queued o) = Int64.wrap64 a /\
  (m_state o = STOPPED -> m_queued o = 0).

(** ** Well-formed clock samples *)

(** A [timespec] as [clock_gettime] fills it in: nanoseconds below one
    second, seconds that leave room for the conversion to microseconds. *)
Definition timespec_ok (tv : timespec) : Prop :=
  0 <= tv_sec tv <= 9223372036853 /\ 0 <= tv_nsec tv < 1000000000.

(** Chronological order of two samples. *)
Definition timespec_le (a b : timespec) : Prop :=
  tv_sec a < tv_sec b \/ (tv_sec a = tv_sec b /\ tv_nsec a <= tv_nsec b).

(** A double holds an integer exactly: it has a 53-bit mantissa [mz] at an exponent [ez] between -52
    and 0, and its value [mz * 2^ez] is the integer [v]. *)
Definition holds_integer (x : spec_float) (s : bool) (v : Z) : Prop :=
  exists mz ez,
    x = S754_finite s mz ez /\ Zpos (digits2_pos mz) = 53 /\
    -52 <= ez <= 0 /\ Zpos mz = v * 2 ^ (- ez).

(** * Proof tools *)

(** Unfolds the methods down to the members and the clock; integer and
    floating-point arithmetic stay folded. *)
Ltac ti_unfold :=
  cbv beta iota zeta delta
    [exec result now after_clock_read bind ret get assign when fst snd
     self clock samples calls clock_gettime get_system_usecs
     set_latency set_state read_pointer usecs_queued seek pause stop reset
     resume err_underrun err_overrun forcibly_update_read_pointer
     get_stream_usecs post_buffer_cold_start post_buffer_clamp_and_detect
     post_buffer_main post_buffer constructor
     run_call state_eqb orb andb negb
     m_state m_Tf m_t0 m_pos0 m_read m_queued m_latency m_last m_now_last
     set_m_state set_m_Tf set_m_t0 set_m_pos0 set_m_read set_m_queued
     set_m_latency set_m_last set_m_now_last].

Ltac ti_unfold_in H :=
  cbv beta iota zeta delta
    [exec result now after_clock_read bind ret get assign when fst snd
     self clock samples calls clock_gettime get_system_usecs
     set_latency set_state read_pointer usecs_queued seek pause stop reset
     resume err_underrun err_overrun forcibly_update_read_pointer
     get_stream_usecs post_buffer_cold_start post_buffer_clamp_and_detect
     post_buffer_main post_buffer constructor
     run_call state_eqb orb andb negb
     m_state m_Tf m_t0 m_pos0 m_read m_queued m_latency m_last m_now_last
     set_m_state set_m_Tf set_m_t0 set_m_pos0 set_m_read set_m_queued
     set_m_latency set_m_last set_m_now_last] in H.

Ltac ti_cases :=
  repeat (match goal with
          | |- context [if ?b then _ else _] => destruct b eqn:?
          end; ti_unfold).

Ltac ti_world w :=
  destruct w as [[st Tf t0 pos0 rd q lat lst nlst] [smp cnt]].

(** * Binary64 arithmetic *)

(** ** Signs *)

Section RoundingFacts.

Implicit Types (s : bool) (m e : Z) (l : location).

Lemma round_aux_signed (s : bool) (m e : Z) (l : location) :
  sf_signed s (binary_round_aux prec emax s m e l).
Proof.
  unfold binary_round_aux.
  destruct (shr_fexp prec emax m e l) as [mrs1 e1].
  destruct (shr_fexp prec emax _ e1 loc_Exact) as [mrs2 e2].
  destruct (shr_m mrs2) as [| p | p]; [exact eq_refl | | exact I].
  destruct (e2 <=? emax - prec); exact eq_refl.
Qed.

Lemma normalize_signed (m e : Z) :
  0 <= m -> sf_signed false (binary_normalize prec emax m e false).
Proof.
  intros Hm. destruct m as [| p | p]; cbn; [reflexivity | | lia].
  unfold binary_round. destruct (shl_align _ _ _) as [mz ez].
  apply round_aux_signed.
Qed.

Lemma mul_signed (sx sy : bool) (x y : spec_float) :
  sf_signed sx x -> sf_signed sy y ->
  sf_signed (xorb sx sy) (SFmul prec emax x y).
Proof.
  destruct x as [a | a | | a mx ex], y as [b | b | | b my ey];
    cbn; try trivial; try (intros -> ->; reflexivity).
  intros -> ->. apply round_aux_signed.
Qed.

Lemma mul_null_l (x y : spec_float) :
  sf_null x -> sf_null (SFmul prec emax x y).
Proof.
  destruct x as [a | a | | a mx ex], y as [b | b | | b my ey];
    cbn; trivial; contradiction.
Qed.

Lemma mul_null_r (x y : spec_float) :
  sf_null y -> sf_null (SFmul prec emax x y).
Proof.
  destruct x as [a | a | | a mx ex], y as [b | b | | b my ey];
    cbn; trivial; contradiction.
Qed.

End RoundingFacts.

Lemma Prim2SF_zero : Prim2SF 0%float = S754_zero false.
Proof. reflexivity. Qed.

Lemma of_magnitude_signed (z : Z) :
  sf_signed false (Prim2SF (Double.of_magnitude z)).
Proof.
  unfold Double.of_magnitude. rewrite of_uint63_spec.
  apply normalize_signed. apply Uint63.to_Z_bounded.
Qed.

Lemma opp_signed (s : bool) (x : float) :
  sf_signed s (Prim2SF x) -> sf_signed (negb s) (Prim2SF (- x)%float).
Proof.
  rewrite opp_spec. destruct (Prim2SF x); cbn; trivial; intros ->; reflexivity.
Qed.

(** The sign of [double(z)] is the sign of [z]. *)
Lemma of_int64_signed (z : Z) :
  sf_signed (z <? 0) (Prim2SF (Double.of_int64 z)).
Proof.
  unfold Double.of_int64.
  destruct (Z.eqb_spec z Int64.min_signed) as [-> | Hne]; [reflexivity |].
  destruct (z <? 0).
  - apply (opp_signed false), of_magnitude_signed.
  - apply of_magnitude_signed.
Qed.

Lemma of_int64_zero : Prim2SF (Double.of_int64 0) = S754_zero false.
Proof. reflexivity. Qed.

Lemma leb_zero_cases (x : float) :
  (0 <=? x)%float = true ->
  sf_null (Prim2SF x) \/
  (sf_signed false (Prim2SF x) /\ sf_number (Prim2SF x)).
Proof.
  rewrite leb_spec, Prim2SF_zero.
  destruct (Prim2SF x) as [a | a | | a mx ex]; cbn.
  - left; trivial.
  - destruct a; [discriminate | right; split; trivial].
  - discriminate.
  - destruct a; [discriminate | right; split; trivial].
Qed.

Lemma ltb_zero_of_signed_false (x : float) :
  sf_signed false (Prim2SF x) -> (x <? 0)%float = false.
Proof.
  rewrite ltb_spec, Prim2SF_zero.
  destruct (Prim2SF x) as [a | a | | a mx ex]; cbn; trivial;
    intros ->; reflexivity.
Qed.

Lemma ltb_zero_of_null (x : float) :
  sf_null (Prim2SF x) -> (x <? 0)%float = false.
Proof.
  rewrite ltb_spec, Prim2SF_zero.
  destruct (Prim2SF x) as [a | a | | a mx ex]; cbn; trivial; contradiction.
Qed.

Lemma to_int64_null (x : float) :
  sf_null (Prim2SF x) -> Double.to_int64 x = 0.
Proof.
  unfold Double.to_int64.
  destruct (Prim2SF x) as [a | a | | a mx ex]; cbn; trivial; contradiction.
Qed.

(** A product that is not positive is clamped or truncated to zero. *)
Lemma to_int64_clamped_signed_true (x : float) :
  sf_signed true (Prim2SF x) ->
  Double.to_int64 (if (x <? 0)%float then 0%float else x) = 0.
Proof.
  intros Hs. rewrite ltb_spec, Prim2SF_zero.
  destruct (Prim2SF x) as [a | a | | a mx ex] eqn:E; cbn in *.
  - apply to_int64_null. rewrite E. exact I.
  - subst a. reflexivity.
  - apply to_int64_null. rewrite E. exact I.
  - subst a. reflexivity.
Qed.

(** With [Tf >= 0] the projection of the specification is the [t_media]
    of the code. *)
Lemma projected_time_is_t_media (t : Z) (o : TimeInterpolator) :
  (0 <=? m_Tf o)%float = true ->
  projected_time t o = t_media_of t o.
Proof.
  intros HTf. unfold projected_time, t_media_of. cbv zeta. f_equal.
  set (d := Int64.sub t (m_t0 o)).
  pose proof (of_int64_signed d) as Hd.
  destruct (Z.ltb_spec d 0) as [Hneg | Hpos].
  - rewrite Z.max_r by lia.
    rewrite (to_int64_null (m_Tf o * Double.of_int64 0)%float).
    2:{ rewrite mul_spec. apply mul_null_r.
        rewrite of_int64_zero. exact I. }
    symmetry.
    destruct (leb_zero_cases _ HTf) as [Hnull | [Hsg _]].
    + rewrite (ltb_zero_of_null _).
      * apply to_int64_null. rewrite mul_spec.
        apply mul_null_l, Hnull.
      * rewrite mul_spec. apply mul_null_l, Hnull.
    + apply to_int64_clamped_signed_true.
      rewrite mul_spec.
      exact (mul_signed false true _ _ Hsg Hd).
  - rewrite Z.max_l by lia.
    destruct (leb_zero_cases _ HTf) as [Hnull | [Hsg _]].
    + rewrite (ltb_zero_of_null (m_Tf o * Double.of_int64 d)%float);
        [reflexivity |].
      rewrite mul_spec. apply mul_null_l, Hnull.
    + rewrite (ltb_zero_of_signed_false (m_Tf o * Double.of_int64 d)%float);
        [reflexivity |].
      rewrite mul_spec.
      exact (mul_signed false false _ _ Hsg Hd).
Qed.

(** ** Rounding never invents a NaN, and keeps a normal magnitude finite *)

Section ShiftFacts.

Implicit Types (r : shr_record) (m e n : Z) (l : location) (p k : positive).

Lemma iter_pos_is_Pos_iter (A : Type) (f : A -> A) p :
  forall x : A, iter_pos f p x = Pos.iter f x p.
Proof.
  induction p as [p IH | p IH |]; intros x; cbn.
  - rewrite !IH, !Pos.iter_swap. reflexivity.
  - rewrite !IH. reflexivity.
  - reflexivity.
Qed.

Lemma shr_1_m r : 0 <= shr_m r -> shr_m (shr_1 r) = Z.div2 (shr_m r).
Proof.
  destruct r as [m b c]. cbn [shr_m].
  destruct m as [| [q | q |] | q]; intros H; try reflexivity; lia.
Qed.

Lemma shr_m_iter k r :
  0 <= shr_m r ->
  0 <= shr_m (Pos.iter shr_1 r k) /\
  shr_m (Pos.iter shr_1 r k) = Z.shiftr (shr_m r) (Zpos k).
Proof.
  intros Hr. induction k as [| k [IH0 IH]] using Pos.peano_ind.
  - cbn [Pos.iter]. rewrite shr_1_m by exact Hr. split.
    + apply Z.div2_nonneg. exact Hr.
    + reflexivity.
  - rewrite Pos.iter_succ, shr_1_m by exact IH0. rewrite IH. split.
    + apply Z.div2_nonneg. rewrite <- IH. exact IH0.
    + rewrite Z.div2_spec, Z.shiftr_shiftr by lia.
      f_equal. lia.
Qed.

Lemma shr_value r e n :
  0 <= shr_m r ->
  shr_m (fst (shr r e n)) = shr_m r / 2 ^ Z.max n 0 /\
  snd (shr r e n) = e + Z.max n 0.
Proof.
  intros Hr. destruct n as [| k | k]; cbn [shr fst snd].
  - rewrite Z.max_l, Z.pow_0_r, Z.div_1_r, Z.add_0_r by lia. split; reflexivity.
  - rewrite iter_pos_is_Pos_iter.
    destruct (shr_m_iter k r Hr) as [_ ->].
    rewrite Z.max_l, Z.shiftr_div_pow2 by lia. split; reflexivity.
  - rewrite Z.max_r, Z.pow_0_r, Z.div_1_r, Z.add_0_r by lia. split; reflexivity.
Qed.

Lemma shr_record_of_loc_m m l : shr_m (shr_record_of_loc m l) = m.
Proof. destruct l as [| []]; reflexivity. Qed.

Lemma fexp_eq e : fexp prec emax e = Z.max (e - 53) (-1074).
Proof. reflexivity. Qed.

Lemma shr_fexp_value m e l :
  0 <= m ->
  let n := Z.max (Zdigits2 m + e - 53) (-1074) - e in
  shr_m (fst (shr_fexp prec emax m e l)) = m / 2 ^ Z.max n 0 /\
  snd (shr_fexp prec emax m e l) = e + Z.max n 0.
Proof.
  intros Hm. cbv zeta. unfold shr_fexp. rewrite fexp_eq.
  rewrite <- (shr_record_of_loc_m m l) at 3.
  apply shr_value. rewrite shr_record_of_loc_m. exact Hm.
Qed.

Lemma round_nearest_even_bounds m l :
  m <= round_nearest_even m l <= m + 1.
Proof.
  unfold round_nearest_even.
  destruct l as [| []]; try destruct (Z.even m); lia.
Qed.

End ShiftFacts.

Section DigitFacts.

Implicit Types (m e : Z) (l : location) (p k : positive) (s : bool).

Lemma digits2_pos_size p : digits2_pos p = Pos.size p.
Proof. induction p; cbn; congruence. Qed.

Lemma digits2_pos_bounds p :
  2 ^ (Zpos (digits2_pos p) - 1) <= Zpos p < 2 ^ Zpos (digits2_pos p).
Proof.
  rewrite digits2_pos_size.
  pose proof (Pos.size_gt p) as Hgt. pose proof (Pos.size_le p) as Hle.
  assert (Hgt' : Zpos p < Zpos (2 ^ Pos.size p)) by lia.
  assert (Hle' : Zpos (2 ^ Pos.size p) <= 2 * Zpos p) by lia.
  rewrite Pos2Z.inj_pow in Hgt', Hle'.
  replace (Zpos (Pos.size p)) with (Z.succ (Zpos (Pos.size p) - 1)) in Hle'
    by lia.
  rewrite Z.pow_succ_r in Hle' by lia.
  lia.
Qed.

Lemma Zdigits2_bounds m :
  0 < m -> 1 <= Zdigits2 m /\ 2 ^ (Zdigits2 m - 1) <= m < 2 ^ Zdigits2 m.
Proof.
  destruct m as [| p | p]; [lia | | lia]. intros _. cbn [Zdigits2].
  split; [lia | apply digits2_pos_bounds].
Qed.

Lemma Zdigits2_le m K : 0 < m -> m <= 2 ^ K -> 0 <= K -> Zdigits2 m <= K + 1.
Proof.
  intros Hm HK H0. destruct (Zdigits2_bounds m Hm) as (H1 & Hlo & _).
  assert (H : 2 ^ (Zdigits2 m - 1) <= 2 ^ K) by lia.
  apply Z.pow_le_mono_r_iff in H; lia.
Qed.

Lemma digits2_pos_iter_xO p k :
  digits2_pos (Pos.iter xO p k) = (digits2_pos p + k)%positive.
Proof.
  induction k as [| k IH] using Pos.peano_ind.
  - cbn. lia.
  - rewrite Pos.iter_succ. cbn [digits2_pos]. rewrite IH. lia.
Qed.

(** One step of [shr_fexp] on a positive mantissa whose exponent is not
    below [emin]: the mantissa stays positive and the exponent is known. *)
Lemma shr_fexp_positive m e l :
  0 < m -> -1074 <= e ->
  1 <= shr_m (fst (shr_fexp prec emax m e l)) <= m /\
  e <= snd (shr_fexp prec emax m e l) /\
  snd (shr_fexp prec emax m e l)
    = Z.max e (Z.max (Zdigits2 m + e - 53) (-1074)).
Proof.
  intros Hm He.
  destruct (shr_fexp_value m e l ltac:(lia)) as [Hv He'].
  destruct (Zdigits2_bounds m Hm) as (Hd & Hlo & _).
  rewrite Hv, He'. clear Hv He'.
  set (k := Z.max (Z.max (Zdigits2 m + e - 53) (-1074) - e) 0).
  assert (Hk : 0 <= k <= Zdigits2 m - 1) by lia.
  assert (Hp : 0 < 2 ^ k <= m).
  { split; [apply Z.pow_pos_nonneg; lia |].
    transitivity (2 ^ (Zdigits2 m - 1)); [| exact Hlo].
    apply Z.pow_le_mono_r; lia. }
  repeat split; try lia.
  - assert (0 < m / 2 ^ k) by (apply Z.div_str_pos; lia). lia.
  - apply Z.div_le_upper_bound; nia.
Qed.

Lemma round_aux_number s m e l :
  0 <= m -> sf_number (binary_round_aux prec emax s m e l).
Proof.
  intros Hm. unfold binary_round_aux.
  destruct (shr_fexp_value m e l Hm) as [H1 _].
  destruct (shr_fexp prec emax m e l) as [mrs1 e1]. cbn [fst] in H1.
  pose proof (round_nearest_even_bounds
                (shr_m mrs1) (loc_of_shr_record mrs1)) as Hr.
  assert (H1' : 0 <= shr_m mrs1).
  { rewrite H1. apply Z.div_pos; [lia |]. apply Z.pow_pos_nonneg; lia. }
  set (r := round_nearest_even _ _) in *.
  destruct (shr_fexp_value r e1 loc_Exact ltac:(lia)) as [H2 _].
  destruct (shr_fexp prec emax r e1 loc_Exact) as [mrs2 e2]. cbn [fst] in H2.
  assert (H2' : 0 <= shr_m mrs2).
  { rewrite H2. apply Z.div_pos; [lia |]. apply Z.pow_pos_nonneg; lia. }
  destruct (shr_m mrs2) as [| q | q]; [exact I | | lia].
  destruct (e2 <=? emax - prec); exact I.
Qed.

Lemma round_aux_finite s m e l :
  0 < m < 2 ^ 64 -> -1074 <= e <= 0 ->
  sf_finite_nonzero (binary_round_aux prec emax s m e l).
Proof.
  intros [Hm HM] [He He0]. unfold binary_round_aux.
  destruct (shr_fexp_positive m e l Hm He) as (H1 & He1 & He1').
  assert (Hd : Zdigits2 m <= 65) by (apply (Zdigits2_le m 64); lia).
  destruct (shr_fexp prec emax m e l) as [mrs1 e1]. cbn [fst snd] in *.
  pose proof (round_nearest_even_bounds
                (shr_m mrs1) (loc_of_shr_record mrs1)) as Hr.
  set (r := round_nearest_even _ _) in *.
  assert (Hr0 : 0 < r) by lia.
  destruct (shr_fexp_positive r e1 loc_Exact Hr0 ltac:(lia))
    as (H2 & He2 & He2').
  assert (Hd2 : Zdigits2 r <= 65) by (apply (Zdigits2_le r 64); lia).
  destruct (shr_fexp prec emax r e1 loc_Exact) as [mrs2 e2].
  cbn [fst snd] in *.
  destruct (shr_m mrs2) as [| q | q]; [lia | | lia].
  assert (Hle : (e2 <=? emax - prec) = true).
  { apply Z.leb_le. change (emax - prec) with 971. lia. }
  rewrite Hle. exact I.
Qed.

Lemma normalize_number m e :
  sf_number (binary_normalize prec emax m e false).
Proof.
  destruct m as [| p | p]; cbn [binary_normalize]; [exact I | |];
    unfold binary_round; destruct (shl_align _ _ _) as [mz ez];
    apply round_aux_number; lia.
Qed.

(** A positive integer below [2^63] rounds to a finite non-zero double. *)
Lemma normalize_finite p :
  Zpos p < 2 ^ 63 ->
  sf_finite_nonzero (binary_normalize prec emax (Zpos p) 0 false).
Proof.
  intros Hp. cbn [binary_normalize]. unfold binary_round.
  rewrite fexp_eq. unfold shl_align.
  destruct (digits2_pos_bounds p) as [Hlo Hhi].
  assert (Hd : 1 <= Zpos (digits2_pos p)) by lia.
  destruct (Z.max (Zpos (digits2_pos p) + 0 - 53) (-1074) - 0)
    as [| k | k] eqn:Ek.
  - apply round_aux_finite; lia.
  - apply round_aux_finite; lia.
  - apply round_aux_finite; [| lia].
    pose proof (digits2_pos_bounds (Pos.iter xO p k)) as [_ Hup].
    rewrite digits2_pos_iter_xO in Hup.
    assert (E : Zpos (digits2_pos p + k) = 53) by lia.
    rewrite E in Hup. lia.
Qed.

End DigitFacts.

(** ** Conversions and the quotient of the feedback step *)

Lemma of_magnitude_number (z : Z) :
  sf_number (Prim2SF (Double.of_magnitude z)).
Proof.
  unfold Double.of_magnitude. rewrite of_uint63_spec.
  apply normalize_number.
Qed.

Lemma opp_number (x : float) :
  sf_number (Prim2SF x) -> sf_number (Prim2SF (- x)%float).
Proof. rewrite opp_spec. destruct (Prim2SF x); cbn; trivial. Qed.

(** [double(z)] is never a NaN. *)
Lemma of_int64_number (z : Z) : sf_number (Prim2SF (Double.of_int64 z)).
Proof.
  unfold Double.of_int64.
  destruct (z =? Int64.min_signed); [exact I |].
  destruct (z <? 0).
  - apply opp_number, of_magnitude_number.
  - apply of_magnitude_number.
Qed.

(** [double(z)] is finite and not zero for a positive [z] of [int64_t]. *)
Lemma of_int64_finite (z : Z) :
  0 < z <= Int64.max_signed ->
  sf_finite_nonzero (Prim2SF (Double.of_int64 z)).
Proof.
  intros [Hz HZ]. unfold Int64.max_signed in HZ. unfold Double.of_int64.
  destruct (Z.eqb_spec z Int64.min_signed) as [E | _];
    [unfold Int64.min_signed in E; lia |].
  destruct (Z.ltb_spec z 0) as [E | _]; [lia |].
  unfold Double.of_magnitude. rewrite of_uint63_spec, Uint63.of_Z_spec.
  rewrite Z.mod_small
    by (change Uint63.wB with 9223372036854775808; lia).
  destruct z as [| p | p]; [lia | | lia].
  apply normalize_finite.
  change (2 ^ 63) with 9223372036854775808. lia.
Qed.

Lemma div_number (x y : spec_float) :
  sf_number x -> sf_finite_nonzero y -> sf_number (SFdiv prec emax x y).
Proof.
  destruct y as [b | b | | b my ey]; try contradiction. intros Hx _.
  destruct x as [a | a | | a mx ex]; try exact I; try contradiction.
  cbn [SFdiv]. unfold SFdiv_core_binary.
  set (m' := match _ with Z0 => Zpos mx | Zpos _ => _ | Zneg _ => 0 end).
  assert (Hm' : 0 <= m').
  { subst m'. destruct (_ - _) as [| k | k]; [lia | | lia].
    apply Z.shiftl_nonneg. lia. }
  pose proof (Z_div_mod m' (Zpos my) ltac:(lia)) as Hdiv.
  destruct (Z.div_eucl m' (Zpos my)) as [q r].
  apply round_aux_number. nia.
Qed.

Lemma sub_number_of_finite (x y : spec_float) :
  sf_finite_nonzero x -> sf_number y -> sf_number (SFsub prec emax x y).
Proof.
  destruct x as [a | a | | a mx ex]; try contradiction. intros _.
  destruct y as [b | b | | b my ey]; cbn [SFsub sf_number];
    try (intros; exact I); try contradiction.
  intros _. apply normalize_number.
Qed.

(** The time factor the feedback step computes is a number whenever the
    latency is a positive [int64_t]. *)
Lemma feedback_Tf_number (x lat : Z) :
  0 < lat <= Int64.max_signed ->
  sf_number
    (Prim2SF (1 - Double.of_int64 x / Double.of_int64 lat)%float).
Proof.
  intros Hlat. rewrite sub_spec, div_spec.
  apply sub_number_of_finite; [exact I |].
  apply div_number; [apply of_int64_number | apply of_int64_finite, Hlat].
Qed.

(** ** Order of doubles *)

Lemma SFcompare_antisym (x y : spec_float) (c : comparison) :
  SFcompare x y = Some c -> SFcompare y x = Some (CompOpp c).
Proof.
  destruct x as [a | a | | a mx ex], y as [b | b | | b my ey]; cbn;
    try discriminate;
    try (intros H; injection H as <-);
    try (destruct a; reflexivity);
    try (destruct b; reflexivity);
    try (destruct a, b; reflexivity).
  destruct a, b; try reflexivity.
  - rewrite (Z.compare_antisym ex ey).
    destruct (ex ?= ey); cbn; try reflexivity.
    rewrite (Pos.compare_cont_antisym mx my Eq). reflexivity.
  - rewrite (Z.compare_antisym ex ey).
    destruct (ex ?= ey); cbn; try reflexivity.
    rewrite (Pos.compare_cont_antisym mx my Eq). reflexivity.
Qed.

Lemma SFcompare_number (x y : spec_float) :
  sf_number x -> sf_number y -> exists c, SFcompare x y = Some c.
Proof.
  destruct x as [a | a | | a mx ex], y as [b | b | | b my ey]; cbn;
    try contradiction; intros _ _; eexists; reflexivity.
Qed.

(** A number that is neither [>= hi] nor [< lo] lies in [[lo, hi]]. *)
Lemma between_of_not_clamped (lo hi t : float) :
  sf_number (Prim2SF lo) -> sf_number (Prim2SF hi) ->
  sf_number (Prim2SF t) ->
  (hi <=? t)%float = false -> (t <? lo)%float = false ->
  (lo <=? t)%float = true /\ (t <=? hi)%float = true.
Proof.
  intros Hlo Hhi Ht. rewrite !leb_spec, ltb_spec.
  unfold SFleb, SFltb.
  destruct (SFcompare_number _ _ Hhi Ht) as [c1 E1].
  destruct (SFcompare_number _ _ Ht Hlo) as [c2 E2].
  rewrite (SFcompare_antisym _ _ _ E1), (SFcompare_antisym _ _ _ E2), E1, E2.
  destruct c1, c2; cbn; intros; try discriminate; split; reflexivity.
Qed.

(** * Properties of the methods *)

(** ** Stop, resume *)

(** C7. For every starting state, the object after [stop()] has the same
    [state], [latency], [t0], [pos0], [read], [queued], [Tf], [last] and
    [now_last] as the object after [pause(true)] run from the same state
    with the same clock. *)
Theorem stop_is_pause_flushing (w : World) :
  let a := exec stop w in
  let b := exec (pause true) w in
  m_state a = m_state b /\ m_latency a = m_latency b /\
  m_t0 a = m_t0 b /\ m_pos0 a = m_pos0 b /\ m_read a = m_read b /\
  m_queued a = m_queued b /\ m_Tf a = m_Tf b /\ m_last a = m_last b /\
  m_now_last a = m_now_last b /\ stop w = pause true w.
Proof.
  unfold stop; cbv zeta; repeat split.
Qed.

(** C10. In every state, [resume()] assigns the clock value to [t0] and
    [1.0] to [Tf] and changes no other member, the state included; it does
    so from a state other than PAUSED as well. *)
Theorem resume_sets_epoch_and_unity (w : World) :
  exec resume w =
    mkTI (m_state (self w)) 1%float (now w) (m_pos0 (self w))
         (m_read (self w)) (m_queued (self w)) (m_latency (self w))
         (m_last (self w)) (m_now_last (self w)).
Proof.
  ti_world w. ti_unfold. reflexivity.
Qed.

(** ** Cold start *)

Lemma initial_offset_is_max (lat : Z) :
  (if Int64.div lat 2 <? 40000 then 40000 else Int64.div lat 2) =
  Z.max (Z.quot lat 2) 40000.
Proof.
  unfold Int64.div.
  destruct (Z.ltb_spec (Z.quot lat 2) 40000); lia.
Qed.

(** C2. For every latency and every [f >= 0], [post_buffer(f)] in state
    STOPPED goes to ROLLING with [read] its old value plus [f] (in
    [int64_t]), [pos0 = read - max(latency / 2, 40000)], [queued = 0],
    [Tf = 1.0] and [t0 = now]; it leaves the other members alone and
    returns from the cold-start block, having read the clock once.  With
    latency 100000 and [post_buffer(20000)] on a new object: [read = 20000],
    [pos0 = -30000], [Tf = 1.0], [queued = 0]. *)
Theorem post_buffer_cold_start_spec :
  (forall (w : World) (f : Z),
     m_state (self w) = STOPPED -> 0 <= f ->
     let o := self w in
     let rd := Int64.add (m_read o) f in
     exec (post_buffer f) w =
       mkTI ROLLING 1%float (now w)
            (Int64.sub rd (Z.max (Z.quot (m_latency o) 2) 40000))
            rd 0 (m_latency o) (m_last o) (m_now_last o)
     /\ post_buffer f w = post_buffer_cold_start f w
     /\ calls (clock (snd (post_buffer f w))) = S (calls (clock w)))
  /\ (forall (raw : TimeInterpolator) (c : Clock),
        let o := exec S1 (mkWorld raw c) in
        m_state o = ROLLING /\ m_read o = 20000 /\ m_pos0 o = -30000 /\
        m_Tf o = 1%float /\ m_queued o = 0).
Proof.
  split.
  - intros w f Hst _. ti_world w. cbn [self m_state] in Hst. subst st.
    cbv zeta. split; [| split; reflexivity].
    ti_unfold. rewrite initial_offset_is_max. reflexivity.
  - intros raw [smp n]. destruct raw. cbv zeta. unfold S1.
    ti_unfold. repeat split.
Qed.

(** The S1 scenario as an instance of the cold start. *)
Lemma post_buffer_cold_start_S1 :
  let w := snd ((constructor ;; set_latency 100000)
                  (mkWorld raw0 (clock_of 0 [0; 0]))) in
  m_state (self w) = STOPPED /\ 0 <= 20000 /\
  exec (post_buffer 20000) w =
    mkTI ROLLING 1%float 0 (-30000) 20000 0 100000 0 0.
Proof.
  cbv zeta. split; [reflexivity | split; [lia |]].
  destruct (proj1 post_buffer_cold_start_spec
              (snd ((constructor ;; set_latency 100000)
                      (mkWorld raw0 (clock_of 0 [0; 0]))))
              20000 eq_refl ltac:(lia)) as [H _].
  rewrite H. vm_compute. reflexivity.
Defined.

(** ** Flushing pause *)

(** C5, as the code has it.  For every starting state whose read pointer
    [read + queued] is not negative, [pause(true)] goes to STOPPED and
    seeks to the read pointer: afterwards [pos0 = read = last] is the old
    [read + queued], [queued = 0], [Tf = 0], [t0 = now] (and
    [now_last = 0]). *)
Theorem pause_flushing_seeks_to_read_pointer (w : World) :
  let o := self w in
  let rp := Int64.add (m_read o) (m_queued o) in
  0 <= rp ->
  exec (pause true) w =
    mkTI STOPPED 0%float (now w) rp rp 0 (m_latency o) rp 0.
Proof.
  ti_world w. cbn [self m_read m_queued m_latency]. cbv zeta. intros Hrp.
  apply Z.leb_le in Hrp.
  destruct st; ti_unfold; rewrite Hrp; reflexivity.
Qed.

Lemma pause_flushing_after_cold_start :
  let w := snd (S1 (mkWorld raw0 (clock_of 0 [0; 0; 5000]))) in
  0 <= Int64.add (m_read (self w)) (m_queued (self w)) /\
  exec (pause true) w = mkTI STOPPED 0%float 5000 20000 20000 0 100000 20000 0.
Proof.
  cbv zeta. split; [vm_compute; discriminate |].
  refine (eq_trans (pause_flushing_seeks_to_read_pointer _ _) _).
  - vm_compute; discriminate.
  - vm_compute; reflexivity.
Defined.

(** C5 as stated fails below zero: after [seek(-1000000)] and a first
    [post_buffer(20000)] the object is ROLLING with a negative read
    pointer; [pause(true)] then stops it without seeking, so [pos0] is not
    [read], [Tf] stays [1.0] and [t0] is not the clock value. *)
Lemma pause_flushing_skips_negative_read_pointer :
  let w := snd ((constructor ;; seek (-1000000) ;; post_buffer 20000)
                  (mkWorld raw0 (clock_of 0 [0; 0; 0; 7]))) in
  let o := self w in
  let o' := exec (pause true) w in
  m_state o = ROLLING /\
  Int64.add (m_read o) (m_queued o) = -980000 /\
  o' = mkTI STOPPED 1%float 0 (-1060000) (-980000) 0 160000 (-1000000) 0 /\
  now w = 7 /\
  ~ (m_state o' = STOPPED /\
     m_pos0 o' = Int64.add (m_read o) (m_queued o) /\
     m_read o' = Int64.add (m_read o) (m_queued o) /\
     m_last o' = Int64.add (m_read o) (m_queued o) /\
     m_queued o' = 0 /\ m_Tf o' = 0%float /\ m_t0 o' = now w).
Proof.
  cbv zeta. repeat split; try (vm_compute; reflexivity).
  vm_compute. intros (_ & H & _). discriminate H.
Qed.

(** ** Pause freezes time *)

Lemma get_stream_usecs_paused (w : World) :
  m_state (self w) = PAUSED ->
  get_stream_usecs w = (m_pos0 (self w), after_clock_read w).
Proof.
  ti_world w. cbn [self m_state]. intros ->. reflexivity.
Qed.

Lemma after_clock_read_self (w : World) : self (after_clock_read w) = self w.
Proof. reflexivity. Qed.

Lemma poll_stream_usecs_paused (n : nat) :
  forall w : World,
    m_state (self w) = PAUSED ->
    exists w' : World,
      poll_stream_usecs n w = (repeat (m_pos0 (self w)) n, w') /\
      self w' = self w.
Proof.
  induction n as [| k IH]; intros w Hp.
  - exists w. split; reflexivity.
  - destruct (IH (after_clock_read w)) as (w' & Hrun & Hself).
    { rewrite after_clock_read_self. exact Hp. }
    rewrite after_clock_read_self in Hrun, Hself.
    exists w'. split; [| exact Hself].
    cbn [poll_stream_usecs repeat]. unfold bind at 1.
    rewrite (get_stream_usecs_paused w Hp). cbn [fst snd].
    unfold bind. rewrite Hrun. reflexivity.
Qed.

(** C6. After [pause(false)] from ROLLING the object is PAUSED with [pos0]
    pinned to the last reported time; every following call of
    [get_stream_usecs] returns that [pos0] and changes no member, so any
    number of calls in a row return the same value. *)
Theorem paused_stream_time_is_frozen (w : World) (n : nat) :
  m_state (self w) = ROLLING ->
  let w1 := snd (pause false w) in
  m_state (self w1) = PAUSED /\
  m_pos0 (self w1) = m_last (self w) /\
  result get_stream_usecs w1 = m_pos0 (self w1) /\
  exec get_stream_usecs w1 = self w1 /\
  result (poll_stream_usecs n) w1 = repeat (m_last (self w)) n /\
  exec (poll_stream_usecs n) w1 = self w1.
Proof.
  intros Hr. cbv zeta.
  assert (Hp : m_state (self (snd (pause false w))) = PAUSED).
  { ti_world w. cbn [self m_state] in Hr. subst st. reflexivity. }
  assert (H0 : m_pos0 (self (snd (pause false w))) = m_last (self w)).
  { ti_world w. cbn [self m_state] in Hr. subst st. reflexivity. }
  destruct (poll_stream_usecs_paused n _ Hp) as (w' & Hrun & Hself).
  unfold result, exec.
  rewrite (get_stream_usecs_paused _ Hp), Hrun. cbn [fst snd].
  rewrite after_clock_read_self, H0.
  repeat split; assumption || reflexivity.
Qed.

Lemma paused_stream_time_is_frozen_sample :
  let w := snd (S2 (mkWorld raw0 (clock_of 0 [0; 0; 20000; 25000]))) in
  let w1 := snd (pause false w) in
  m_state (self w) = ROLLING /\
  result (poll_stream_usecs 3) w1 = [0; 0; 0] /\
  exec (poll_stream_usecs 3) w1 = self w1.
Proof.
  cbv zeta.
  assert (Hr : m_state (self (snd (S2 (mkWorld raw0
                 (clock_of 0 [0; 0; 20000; 25000]))))) = ROLLING)
    by (vm_compute; reflexivity).
  split; [exact Hr |].
  destruct (paused_stream_time_is_frozen _ 3 Hr)
    as (_ & _ & _ & _ & Hres & Hex).
  split; [rewrite Hres; vm_compute; reflexivity | exact Hex].
Defined.

(** ** Aggregation *)

(** C8. While ROLLING, a [post_buffer(f)] with [now - t0 < f / 4]
    (truncating division) adds [f] to [queued] and changes no other
    member; a second such call right after it adds its own amount as well,
    and the epoch [(t0, pos0)] has not moved. *)
Theorem post_buffer_aggregates (w : World) (f : Z) :
  m_state (self w) = ROLLING ->
  Int64.sub (now w) (m_t0 (self w)) < Z.quot f 4 ->
  let o := self w in
  let w1 := snd (post_buffer f w) in
  self w1 =
    mkTI (m_state o) (m_Tf o) (m_t0 o) (m_pos0 o) (m_read o)
         (Int64.add (m_queued o) f) (m_latency o) (m_last o) (m_now_last o)
  /\ (forall g : Z,
        Int64.sub (now w1) (m_t0 o) < Z.quot g 4 ->
        exec (post_buffer f ;; post_buffer g) w =
          mkTI (m_state o) (m_Tf o) (m_t0 o) (m_pos0 o) (m_read o)
               (Int64.add (Int64.add (m_queued o) f) g)
               (m_latency o) (m_last o) (m_now_last o)).
Proof.
  ti_world w. cbn [self m_state m_t0]. intros -> Hdt. cbv zeta.
  revert Hdt. ti_unfold. unfold Int64.div. intros Hdt.
  apply Z.ltb_lt in Hdt. rewrite Hdt. split; [reflexivity |].
  intros g Hg. apply Z.ltb_lt in Hg. rewrite Hg. reflexivity.
Qed.

(** The S3 scenario: two posts of 40000 us, 5000 us apart. *)
Lemma post_buffer_aggregates_S3 :
  let w := mkWorld (mkTI ROLLING 1%float 0 (-10000) 40000 40000 100000 0 0)
                   (clock_of 0 [5000; 6000]) in
  m_state (self w) = ROLLING /\
  Int64.sub (now w) (m_t0 (self w)) < Z.quot 40000 4 /\
  exec (post_buffer 40000) w =
    mkTI ROLLING 1%float 0 (-10000) 40000 80000 100000 0 0 /\
  exec (post_buffer 40000 ;; post_buffer 40000) w =
    mkTI ROLLING 1%float 0 (-10000) 40000 120000 100000 0 0.
Proof.
  cbv zeta. split; [reflexivity | split; [vm_compute; reflexivity |]].
  destruct (post_buffer_aggregates
              (mkWorld (mkTI ROLLING 1%float 0 (-10000) 40000 40000 100000 0 0)
                       (clock_of 0 [5000; 6000]))
              40000 eq_refl eq_refl) as [H1 H2].
  split; [exact H1 | exact (H2 40000 eq_refl)].
Defined.

(** ** Seek *)

(** C9, as the code has it.  A second [seek(m)] right after a first one
    leaves every member as the first left it, except [t0], which holds the
    clock value the second call read; so the two objects are identical
    exactly when both calls read the same clock value. *)
Theorem seek_twice (w : World) (m : Z) :
  let o1 := exec (seek m) w in
  let o2 := exec (seek m ;; seek m) w in
  o2 = set_m_t0 (now (snd (seek m w))) o1 /\
  (o2 = o1 <-> now (snd (seek m w)) = now w).
Proof.
  ti_world w. cbv zeta.
  destruct st; ti_unfold; (split; [reflexivity |]);
    (split; [intros H; apply (f_equal m_t0) in H; exact H
            | intros H; f_equal; exact H]).
Qed.

(** C9 as stated fails when the clock moves between the two calls: the
    second [seek(0)] re-pins [t0]. *)
Lemma seek_twice_moves_t0 :
  let w := mkWorld raw0 (clock_of 0 [0; 1]) in
  exec (seek 0) w = mkTI STOPPED 0%float 0 0 0 0 0 0 0 /\
  exec (seek 0 ;; seek 0) w = mkTI STOPPED 0%float 1 0 0 0 0 0 0 /\
  exec (seek 0 ;; seek 0) w <> exec (seek 0) w.
Proof.
  cbv zeta. repeat split. vm_compute. discriminate.
Qed.

(** ** Underrun detected by a reader *)

Lemma get_stream_usecs_underrun_t_media (w : World) :
  m_state (self w) = ROLLING ->
  let o := self w in
  let rp := Int64.add (m_read o) (m_queued o) in
  rp <= t_media_of (now w) o ->
  get_stream_usecs w =
    (rp, mkWorld (mkTI STOPPED 0%float (m_t0 o) rp rp 0 (m_latency o) rp (now w))
                 (clock (after_clock_read w))).
Proof.
  ti_world w. cbn [self m_state]. intros ->. cbv zeta.
  unfold t_media_of. ti_unfold. intros Hrp.
  apply Z.leb_le in Hrp. rewrite Hrp. reflexivity.
Qed.

(** C4. When [get_stream_usecs] is called while ROLLING (so with a time
    factor that is not negative) and the projected time
    [pos0 + floor(Tf * max(now - t0, 0))] has reached [read + queued], the
    call returns [read + queued] as they were, and leaves the object
    STOPPED with [Tf = 0], [read] the old [read + queued], [pos0 = read]
    and [queued = 0] (it also records the returned time in [last] and the
    clock in [now_last]). *)
Theorem get_stream_usecs_underrun (w : World) :
  m_state (self w) = ROLLING ->
  (0 <=? m_Tf (self w))%float = true ->
  Int64.add (m_read (self w)) (m_queued (self w))
    <= projected_time (now w) (self w) ->
  let o := self w in
  let rp := Int64.add (m_read o) (m_queued o) in
  result get_stream_usecs w = rp /\
  exec get_stream_usecs w =
    mkTI STOPPED 0%float (m_t0 o) rp rp 0 (m_latency o) rp (now w).
Proof.
  intros Hst HTf Hrp. cbv zeta.
  rewrite (projected_time_is_t_media _ _ HTf) in Hrp.
  unfold result, exec.
  rewrite (get_stream_usecs_underrun_t_media w Hst Hrp).
  split; reflexivity.
Qed.

(** The S4 scenario: ten seconds of silence after the cold start. *)
Lemma get_stream_usecs_underrun_S4 :
  m_state (self S4_world) = ROLLING /\
  (0 <=? m_Tf (self S4_world))%float = true /\
  Int64.add (m_read (self S4_world)) (m_queued (self S4_world))
    <= projected_time (now S4_world) (self S4_world) /\
  result get_stream_usecs S4_world = 20000 /\
  exec get_stream_usecs S4_world =
    mkTI STOPPED 0%float 0 20000 20000 0 100000 20000 10000000.
Proof.
  assert (H1 : m_state (self S4_world) = ROLLING)
    by (vm_compute; reflexivity).
  assert (H2 : (0 <=? m_Tf (self S4_world))%float = true)
    by (vm_compute; reflexivity).
  assert (H3 : Int64.add (m_read (self S4_world)) (m_queued (self S4_world))
               <= projected_time (now S4_world) (self S4_world))
    by (vm_compute; discriminate).
  destruct (get_stream_usecs_underrun _ H1 H2 H3) as [Hres Hex].
  split; [exact H1 | split; [exact H2 | split; [exact H3 | split]]].
  - rewrite Hres. vm_compute. reflexivity.
  - rewrite Hex. vm_compute. reflexivity.
Defined.

(** ** The feedback update *)

Lemma post_buffer_rolling (w : World) (f : Z) :
  m_state (self w) = ROLLING ->
  Z.quot f 4 <= Int64.sub (now w) (m_t0 (self w)) ->
  let o := self w in
  let t1 := now w in
  let rd := Int64.add (m_read o) (m_queued o) in
  let pos1 :=
    Double.to_int64
      (Double.of_int64 (m_pos0 o)
       + m_Tf o * Double.of_int64 (Int64.sub t1 (m_t0 o)))%float in
  let e := Double.of_int64 (Int64.sub pos1 (Int64.sub rd (m_latency o))) in
  let Tf1 := (1 - e / Double.of_int64 (m_latency o))%float in
  post_buffer f w =
    post_buffer_clamp_and_detect
      (mkWorld (mkTI ROLLING Tf1 t1 pos1 rd f
                     (m_latency o) (m_last o) (m_now_last o))
               (clock (after_clock_read w))).
Proof.
  intros Hst Hdt. ti_world w. cbn [self m_state] in Hst. subst st.
  cbv zeta. revert Hdt. ti_unfold. unfold Int64.div. intros Hdt.
  apply Z.ltb_ge in Hdt. rewrite Hdt. reflexivity.
Qed.

Lemma post_buffer_paused (w : World) (f : Z) :
  m_state (self w) = PAUSED ->
  Z.quot f 4 <= Int64.sub (now w) (m_t0 (self w)) ->
  let o := self w in
  let t1 := now w in
  let rd := Int64.add (m_read o) (m_queued o) in
  let pos1 :=
    Double.to_int64
      (Double.of_int64 (m_pos0 o)
       + m_Tf o * Double.of_int64 (Int64.sub t1 (m_t0 o)))%float in
  post_buffer f w =
    post_buffer_clamp_and_detect
      (mkWorld (mkTI ROLLING 1%float t1 pos1 rd f
                     (m_latency o) (m_last o) (m_now_last o))
               (clock (after_clock_read w))).
Proof.
  intros Hst Hdt. ti_world w. cbn [self m_state] in Hst. subst st.
  cbv zeta. revert Hdt. ti_unfold. unfold Int64.div. intros Hdt.
  apply Z.ltb_ge in Hdt. rewrite Hdt. reflexivity.
Qed.

(** C1, as the code has it.  A [post_buffer(f)] made while ROLLING that
    does not aggregate (there [set_Tf_to_unity] is false) rolls the
    queued amount into [read], projects [pos1 = pos0 + Tf * (now - t0)],
    takes [e = pos1 - (read - latency)] and [Tf = 1.0 - e / latency],
    advances the epoch to [(now, pos1)] and queues [f]; the clamp and the
    underrun check then run on that object, and change nothing when the
    new [Tf] is in [[0.5, 2.0)] and [pos1 < read].  In the S2 scenario the
    cold start has left [queued = 0], so [read] stays 20000; [pos0] is
    -10000, the new [Tf] is [1 - 70000 / 100000], below 0.5, and is
    clamped to 0.5. *)
Theorem post_buffer_feedback_update :
  (forall (w : World) (f : Z),
     m_state (self w) = ROLLING ->
     Z.quot f 4 <= Int64.sub (now w) (m_t0 (self w)) ->
     let o := self w in
     let t1 := now w in
     let rd := Int64.add (m_read o) (m_queued o) in
     let pos1 :=
       Double.to_int64
         (Double.of_int64 (m_pos0 o)
          + m_Tf o * Double.of_int64 (Int64.sub t1 (m_t0 o)))%float in
     let e := Double.of_int64 (Int64.sub pos1 (Int64.sub rd (m_latency o))) in
     let Tf1 := (1 - e / Double.of_int64 (m_latency o))%float in
     let o1 :=
       mkTI ROLLING Tf1 t1 pos1 rd f (m_latency o) (m_last o) (m_now_last o) in
     post_buffer f w =
       post_buffer_clamp_and_detect (mkWorld o1 (clock (after_clock_read w)))
     /\ ((2 <=? Tf1)%float = false -> (Tf1 <? 0.5)%float = false ->
         pos1 < rd -> exec (post_buffer f) w = o1))
  /\ (forall raw : TimeInterpolator,
        let w1 := snd (S1 (mkWorld raw (clock_of 0 [0; 0; 20000]))) in
        let o := exec (post_buffer 20000) w1 in
        m_state o = ROLLING /\ m_read o = 20000 /\ m_pos0 o = -10000 /\
        m_Tf o = 0.5%float /\ m_queued o = 20000 /\ m_t0 o = 20000 /\
        ((1 - Double.of_int64 70000 / Double.of_int64 100000 <? 0.5)%float
         = true)).
Proof.
  split.
  - intros w f Hst Hdt. cbv zeta.
    pose proof (post_buffer_rolling w f Hst Hdt) as Hrun. cbv zeta in Hrun.
    split; [exact Hrun |].
    intros H2 H05 Hpos. unfold exec. rewrite Hrun. clear Hrun.
    apply Z.leb_gt in Hpos.
    ti_world w. ti_unfold. ti_unfold_in H2. ti_unfold_in H05.
    ti_unfold_in Hpos. rewrite H2, H05, Hpos. reflexivity.
  - intros raw. destruct raw. cbv zeta. vm_compute. repeat split.
Qed.

(** C1 as stated fails in its S2 figures: [read] is 20000 after the
    second post, not 40000. *)
Lemma post_buffer_S2_read_is_not_40000 :
  let o := exec S2 (mkWorld raw0 (clock_of 0 [0; 0; 20000])) in
  o = mkTI ROLLING 0.5%float 20000 (-10000) 20000 20000 100000 0 0 /\
  ~ (m_read o = 40000 /\ m_pos0 o = -10000 /\ m_Tf o = 0.5%float).
Proof.
  cbv zeta. split; [vm_compute; reflexivity |].
  vm_compute. intros [H _]. discriminate H.
Qed.

(** A steady post, 20000 us after an epoch with 20000 us queued: the
    update applies as computed and neither the clamp nor the underrun
    check fires. *)
Lemma post_buffer_feedback_update_sample :
  let w := mkWorld (mkTI ROLLING 1%float 0 (-75000) 0 20000 100000 0 0)
                   (clock_of 0 [20000]) in
  m_state (self w) = ROLLING /\
  Z.quot 20000 4 <= Int64.sub (now w) (m_t0 (self w)) /\
  exec (post_buffer 20000) w =
    mkTI ROLLING 0.75%float 20000 (-55000) 20000 20000 100000 0 0.
Proof.
  cbv zeta. split; [reflexivity | split; [vm_compute; discriminate |]].
  destruct (proj1 post_buffer_feedback_update
              (mkWorld (mkTI ROLLING 1%float 0 (-75000) 0 20000 100000 0 0)
                       (clock_of 0 [20000]))
              20000 eq_refl ltac:(vm_compute; discriminate)) as [_ H].
  rewrite H; vm_compute; reflexivity.
Defined.

(** ** Range of the time factor *)

Lemma post_buffer_takes_aggregation_path (w : World) (f : Z) :
  aggregates f w = true ->
  exec (post_buffer f) w =
    set_m_queued (Int64.add (m_queued (self w)) f)
                 (set_m_state ROLLING (self w)).
Proof.
  ti_world w. unfold aggregates. cbn [self m_state m_t0].
  destruct st; cbn [state_eqb negb andb]; try discriminate;
    ti_unfold; intros ->; reflexivity.
Qed.

Lemma clamp_and_detect_range (w : World) :
  m_state (self w) = ROLLING ->
  sf_number (Prim2SF (m_Tf (self w))) ->
  let o := self (snd (post_buffer_clamp_and_detect w)) in
  (m_state o = ROLLING /\
   (0.5 <=? m_Tf o)%float = true /\ (m_Tf o <=? 2)%float = true)
  \/ (m_state o = STOPPED /\ m_Tf o = 0%float /\
      m_pos0 o = m_read o /\ m_queued o = 0).
Proof.
  ti_world w. cbn [self m_state m_Tf]. intros -> HTf. cbv zeta.
  ti_unfold.
  destruct (2 <=? Tf)%float eqn:E2; [| destruct (Tf <? 0.5)%float eqn:E05];
    ti_unfold;
    match goal with
    | |- context [if ?b then _ else _] => destruct b
    end; ti_unfold;
    try (right; repeat split; reflexivity);
    left; (split; [reflexivity |]);
    try (split; reflexivity).
  apply between_of_not_clamped; try exact I; assumption.
Qed.

(** The end of the update, case by case.  [p] is the value [m_pos0] holds
    when the check [m_pos0 >= m_read] of the underrun detection runs: the
    overrun handler, entered when the clamp finds [Tf >= 2.0], has moved
    it to [read - latency] by then.  The check alone decides the outcome:
    when it does not fire the object stays ROLLING with [Tf] clamped into
    [[0.5, 2.0]] and [pos0 = p]; when it fires [err_underrun] stops the
    object and zeroes [Tf]. *)
Lemma clamp_and_detect_decides (w : World) :
  m_state (self w) = ROLLING ->
  sf_number (Prim2SF (m_Tf (self w))) ->
  let o := self w in
  let p :=
    if (2 <=? m_Tf o)%float then Int64.sub (m_read o) (m_latency o)
    else m_pos0 o in
  let o' := self (snd (post_buffer_clamp_and_detect w)) in
  (p < m_read o ->
   m_state o' = ROLLING /\
   (0.5 <=? m_Tf o')%float = true /\ (m_Tf o' <=? 2)%float = true /\
   m_pos0 o' = p /\ m_read o' = m_read o)
  /\ (m_read o <= p ->
      m_state o' = STOPPED /\ m_Tf o' = 0%float /\
      m_pos0 o' = m_read o' /\ m_queued o' = 0).
Proof.
  ti_world w. cbn [self m_state m_Tf m_read m_latency m_pos0].
  intros -> HTf. cbv zeta.
  ti_unfold.
  destruct (2 <=? Tf)%float eqn:E2; [| destruct (Tf <? 0.5)%float eqn:E05];
    ti_unfold;
    match goal with
    | |- context [if (?a <=? ?b)%Z then _ else _] =>
        destruct (Z.leb_spec a b) as [Hchk | Hchk]
    end; ti_unfold;
    (split; intros Hp;
     [ try (exfalso; apply (Z.lt_irrefl _ (Z.lt_le_trans _ _ _ Hp Hchk)))
     | try (exfalso; apply (Z.lt_irrefl _ (Z.lt_le_trans _ _ _ Hchk Hp))) ]);
    try (repeat split; reflexivity).
  destruct (between_of_not_clamped 0.5 2 Tf I I HTf E2 E05) as [Hlo Hhi].
  split; [reflexivity | split; [exact Hlo | split; [exact Hhi |]]].
  split; reflexivity.
Qed.

(** C3, as the code has it.  Take a [post_buffer] that does not take the
    aggregation path, on an object whose latency is a positive
    [int64_t].  From STOPPED the cold start leaves the object ROLLING
    with [Tf = 1.0] and runs no check.  Otherwise the update computes
    the new read pointer [rd], the interpolated position [pos1] and the
    fed-back factor [Tf1] (forced to 1.0 when the object was PAUSED), and
    ends with the check [m_pos0 >= m_read], where [m_pos0] holds [p]
    ([pos1], or [rd - latency] when the clamp at 2.0 reported an
    overrun).  When the check does not fire ([p < rd]) the object is
    ROLLING with [Tf] in [[0.5, 2.0]]; when it fires ([rd <= p]) the
    object is STOPPED with [Tf = 0] (and [pos0 = read], [queued = 0]).
    So [Tf] is in [[0.5, 2.0]] exactly when the underrun check has not
    fired. *)
Theorem post_buffer_time_factor_range (w : World) (f : Z) :
  0 < m_latency (self w) <= Int64.max_signed ->
  aggregates f w = false ->
  let o := self w in
  let o' := exec (post_buffer f) w in
  let t1 := now w in
  let rd := Int64.add (m_read o) (m_queued o) in
  let pos1 :=
    Double.to_int64
      (Double.of_int64 (m_pos0 o)
       + m_Tf o * Double.of_int64 (Int64.sub t1 (m_t0 o)))%float in
  let e := Double.of_int64 (Int64.sub pos1 (Int64.sub rd (m_latency o))) in
  let Tf1 :=
    if state_eqb (m_state o) PAUSED then 1%float
    else (1 - e / Double.of_int64 (m_latency o))%float in
  let p :=
    if (2 <=? Tf1)%float then Int64.sub rd (m_latency o) else pos1 in
  (m_state o = STOPPED ->
   m_state o' = ROLLING /\ m_Tf o' = 1%float)
  /\ (m_state o <> STOPPED -> p < rd ->
      m_state o' = ROLLING /\
      (0.5 <=? m_Tf o')%float = true /\ (m_Tf o' <=? 2)%float = true /\
      m_pos0 o' = p /\ m_read o' = rd)
  /\ (m_state o <> STOPPED -> rd <= p ->
      m_state o' = STOPPED /\ m_Tf o' = 0%float /\
      m_pos0 o' = m_read o' /\ m_queued o' = 0).
Proof.
  intros Hlat Hagg. cbv zeta. unfold aggregates in Hagg.
  destruct (m_state (self w)) eqn:Hst;
    cbn [state_eqb negb andb] in Hagg |- *.
  - split; [intros _ | split; intros Hne; exfalso; apply Hne; reflexivity].
    ti_world w. cbn [self m_state] in Hst. subst st.
    ti_unfold. split; reflexivity.
  - unfold Int64.div in Hagg. apply Z.ltb_ge in Hagg.
    split; [intros Hs; discriminate Hs |].
    unfold exec. rewrite (post_buffer_rolling w f Hst Hagg).
    match goal with
    | |- context [post_buffer_clamp_and_detect ?w1] =>
        assert (HTf : sf_number (Prim2SF (m_Tf (self w1))))
          by (cbn [self m_Tf]; apply feedback_Tf_number, Hlat);
        destruct (clamp_and_detect_decides w1 eq_refl HTf) as [Hq Hu]
    end.
    cbn [self m_Tf m_read m_latency m_pos0] in Hq, Hu.
    split; [intros _ Hp; exact (Hq Hp) | intros _ Hp; exact (Hu Hp)].
  - unfold Int64.div in Hagg. apply Z.ltb_ge in Hagg.
    split; [intros Hs; discriminate Hs |].
    unfold exec. rewrite (post_buffer_paused w f Hst Hagg).
    match goal with
    | |- context [post_buffer_clamp_and_detect ?w1] =>
        destruct (clamp_and_detect_decides w1 eq_refl I) as [Hq Hu]
    end.
    cbn [self m_Tf m_read m_latency m_pos0] in Hq, Hu.
    replace (2 <=? 1)%float with false in Hq, Hu |- * by reflexivity.
    split; [intros _ Hp; exact (Hq Hp) | intros _ Hp; exact (Hu Hp)].
Qed.
Lemma post_buffer_time_factor_range_S2 :
  0 < m_latency (self S2_world) <= Int64.max_signed /\
  aggregates 20000 S2_world = false /\
  let o' := exec (post_buffer 20000) S2_world in
  m_state o' = ROLLING /\
  (0.5 <=? m_Tf o')%float = true /\ (m_Tf o' <=? 2)%float = true /\
  m_pos0 o' = -10000 /\ m_read o' = 20000.
Proof.
  assert (H1 : 0 < m_latency (self S2_world) <= Int64.max_signed)
    by (vm_compute; split; [reflexivity | discriminate]).
  assert (H2 : aggregates 20000 S2_world = false)
    by (vm_compute; reflexivity).
  split; [exact H1 | split; [exact H2 |]].
  assert (H3 : m_state (self S2_world) <> STOPPED)
    by (vm_compute; discriminate).
  pose proof (post_buffer_time_factor_range S2_world 20000 H1 H2) as H.
  cbv zeta in H. destruct H as [_ [H _]].
  specialize (H H3).
  exact (H eq_refl).
Defined.

(** C3 as stated fails when the update ends in an underrun: a post that
    comes 100 ms after the cold start finds [pos0] past [read], and the
    handler leaves [Tf = 0]. *)
Lemma post_buffer_underrun_zeroes_Tf :
  let o := exec (post_buffer 20000) late_post_world in
  m_state (self late_post_world) = ROLLING /\
  aggregates 20000 late_post_world = false /\
  o = mkTI STOPPED 0%float 100000 40000 40000 0 100000 0 0 /\
  ~ ((0.5 <=? m_Tf o)%float = true /\ (m_Tf o <=? 2)%float = true).
Proof.
  cbv zeta. repeat split; try (vm_compute; reflexivity).
  vm_compute. intros [H _]. discriminate H.
Qed.

(** ** What every history keeps *)

Lemma Tf_in_range_one : Tf_in_range 1%float.
Proof. split; reflexivity. Qed.

Lemma Tf_in_range_nonneg (t : float) :
  Tf_in_range t -> (0 <=? t)%float = true.
Proof.
  intros [H _]. revert H. rewrite !leb_spec. unfold SFleb.
  change (Prim2SF 0.5) with (S754_finite false 4503599627370496 (-53)).
  rewrite Prim2SF_zero.
  destruct (Prim2SF t) as [a | a | | a mx ex]; cbn; try discriminate;
    destruct a; try discriminate; reflexivity.
Qed.

Lemma clamp_and_detect_latency (w : World) :
  m_latency (self (snd (post_buffer_clamp_and_detect w)))
  = m_latency (self w).
Proof.
  ti_world w. destruct st; ti_unfold; ti_cases; reflexivity.
Qed.

Lemma set_latency_well_kept (lat_usecs : Z) (w : World) :
  lat_usecs <= Int64.max_signed ->
  well_kept (self w) -> well_kept (exec (set_latency lat_usecs) w).
Proof.
  ti_world w. unfold well_kept. cbn [self m_latency m_Tf].
  intros Hfit [Hlat HTf]. unfold exec, set_latency.
  destruct (Z.ltb_spec 0 lat_usecs); cbn; (split; [| exact HTf]).
  - lia.
  - unfold DEFAULT_AUDIO_LATENCY, Int64.max_signed. lia.
Qed.

Lemma seek_well_kept (media_time : Z) (w : World) :
  well_kept (self w) -> well_kept (exec (seek media_time) w).
Proof.
  ti_world w. unfold well_kept. cbn [self m_latency m_Tf].
  intros [Hlat HTf].
  destruct st; ti_unfold; (split; [exact Hlat |]);
    solve [left; reflexivity | right; exact Tf_in_range_one].
Qed.

Lemma pause_well_kept (flushing_fifo : bool) (w : World) :
  well_kept (self w) -> well_kept (exec (pause flushing_fifo) w).
Proof.
  ti_world w. unfold well_kept. cbn [self m_latency m_Tf].
  intros [Hlat HTf].
  destruct flushing_fifo, st; ti_unfold; ti_cases;
    (split; [exact Hlat |]);
    solve [exact HTf | left; reflexivity].
Qed.

Lemma resume_well_kept (w : World) :
  well_kept (self w) -> well_kept (exec resume w).
Proof.
  ti_world w. unfold well_kept. cbn [self m_latency m_Tf].
  intros [Hlat _]. ti_unfold. split; [exact Hlat |].
  right. exact Tf_in_range_one.
Qed.

Lemma get_stream_usecs_well_kept (w : World) :
  well_kept (self w) -> well_kept (exec get_stream_usecs w).
Proof.
  ti_world w. unfold well_kept. cbn [self m_latency m_Tf].
  intros [Hlat HTf].
  destruct st; ti_unfold; ti_cases; (split; [exact Hlat |]);
    solve [exact HTf | left; reflexivity].
Qed.

Lemma post_buffer_well_kept (frame_usecs : Z) (w : World) :
  well_kept (self w) -> well_kept (exec (post_buffer frame_usecs) w).
Proof.
  intros [Hlat HTf].
  destruct (aggregates frame_usecs w) eqn:Hagg.
  - rewrite (post_buffer_takes_aggregation_path w frame_usecs Hagg).
    split; [exact Hlat | exact HTf].
  - unfold aggregates in Hagg.
    destruct (m_state (self w)) eqn:Hst; cbn [state_eqb negb andb] in Hagg.
    + ti_world w. cbn [self m_state m_latency] in *. subst st.
      split; [exact Hlat | right; exact Tf_in_range_one].
    + unfold Int64.div in Hagg. apply Z.ltb_ge in Hagg.
      unfold exec, well_kept.
      rewrite (post_buffer_rolling w frame_usecs Hst Hagg).
      rewrite clamp_and_detect_latency. split; [exact Hlat |].
      match goal with
      | |- context [post_buffer_clamp_and_detect ?w1] =>
          assert (HTf1 : sf_number (Prim2SF (m_Tf (self w1))))
            by (cbn [self m_Tf]; apply feedback_Tf_number, Hlat);
          destruct (clamp_and_detect_range w1 eq_refl HTf1)
            as [(_ & H1 & H2) | (_ & H0 & _)]
      end.
      * right. split; assumption.
      * left. exact H0.
    + unfold Int64.div in Hagg. apply Z.ltb_ge in Hagg.
      unfold exec, well_kept.
      rewrite (post_buffer_paused w frame_usecs Hst Hagg).
      rewrite clamp_and_detect_latency. split; [exact Hlat |].
      match goal with
      | |- context [post_buffer_clamp_and_detect ?w1] =>
          destruct (clamp_and_detect_range w1 eq_refl I)
            as [(_ & H1 & H2) | (_ & H0 & _)]
      end.
      * right. split; assumption.
      * left. exact H0.
Qed.

Lemma run_call_well_kept (c : call) (w : World) :
  call_fits c -> well_kept (self w) -> well_kept (exec (run_call c) w).
Proof.
  intros Hfit Hw. destruct c; cbn [run_call call_fits] in *.
  - apply set_latency_well_kept; assumption.
  - apply seek_well_kept, Hw.
  - apply post_buffer_well_kept, Hw.
  - exact (get_stream_usecs_well_kept w Hw).
  - apply pause_well_kept, Hw.
  - apply (pause_well_kept true), Hw.
  - apply resume_well_kept, Hw.
  - unfold reset, exec, bind.
    apply (seek_well_kept 0 (snd (stop w))), (pause_well_kept true), Hw.
  - exact Hw.
  - exact Hw.
  - exact Hw.
Qed.

Lemma run_calls_well_kept (cs : list call) :
  forall w : World,
    Forall call_fits cs -> well_kept (self w) ->
    well_kept (exec (run_calls cs) w).
Proof.
  induction cs as [| c cs IH]; intros w Hfit Hw.
  - exact Hw.
  - inversion Hfit as [| c' cs' Hc Hcs]; subst.
    cbn [run_calls]. unfold exec, bind.
    apply (IH (snd (run_call c w)) Hcs).
    exact (run_call_well_kept c w Hc Hw).
Qed.

Lemma constructor_well_kept (raw : TimeInterpolator) (c : Clock) :
  well_kept (exec constructor (mkWorld raw c)).
Proof.
  destruct raw, c. unfold well_kept. ti_unfold. split.
  - unfold DEFAULT_AUDIO_LATENCY, Int64.max_signed. lia.
  - left. reflexivity.
Qed.

(** X1. In every object the class can produce, that is, after the constructor
    and any sequence of method calls, the latency is positive and the time
    factor is zero or within [[0.5, 2.0]]; it is never negative and never
    a NaN. *)
Theorem history_keeps_time_factor
  (raw : TimeInterpolator) (c : Clock) (cs : list call) :
  Forall call_fits cs ->
  let o := exec (constructor ;; run_calls cs) (mkWorld raw c) in
  0 < m_latency o <= Int64.max_signed /\
  (m_Tf o = 0%float \/ Tf_in_range (m_Tf o)) /\
  (0 <=? m_Tf o)%float = true.
Proof.
  intros Hfit. cbv zeta.
  assert (H : well_kept (exec (constructor ;; run_calls cs) (mkWorld raw c))).
  { unfold exec, bind.
    apply (run_calls_well_kept cs (snd (constructor (mkWorld raw c))) Hfit).
    exact (constructor_well_kept raw c). }
  destruct H as [Hlat HTf]. split; [exact Hlat | split; [exact HTf |]].
  destruct HTf as [-> | Hr]; [reflexivity | exact (Tf_in_range_nonneg _ Hr)].
Qed.

Lemma history_keeps_time_factor_S2 :
  Forall call_fits [call_set_latency 100000; call_post_buffer 20000;
                    call_post_buffer 20000] /\
  let o := exec (constructor ;;
                 run_calls [call_set_latency 100000; call_post_buffer 20000;
                            call_post_buffer 20000])
                (mkWorld raw0 (clock_of 0 [0; 0; 20000])) in
  0 < m_latency o <= Int64.max_signed /\
  (m_Tf o = 0%float \/ Tf_in_range (m_Tf o)) /\
  (0 <=? m_Tf o)%float = true.
Proof.
  assert (Hfit : Forall call_fits
                   [call_set_latency 100000; call_post_buffer 20000;
                    call_post_buffer 20000]).
  { repeat constructor. vm_compute. discriminate. }
  split; [exact Hfit |].
  exact (history_keeps_time_factor raw0 (clock_of 0 [0; 0; 20000]) _ Hfit).
Defined.

(** ** Further properties of the methods *)

(** X2. While ROLLING, [get_stream_usecs] never returns a time past the read
    pointer [read + queued] as it stands when the call is made. *)
Theorem get_stream_usecs_envelope (w : World) :
  m_state (self w) = ROLLING ->
  result get_stream_usecs w
    <= Int64.add (m_read (self w)) (m_queued (self w)).
Proof.
  ti_world w. cbn [self m_state m_read m_queued]. intros ->.
  ti_unfold.
  match goal with
  | |- context [if (?a <=? ?b)%Z then _ else _] =>
      destruct (Z.leb_spec a b) as [Hle | Hgt]
  end; ti_unfold; lia.
Qed.

Lemma get_stream_usecs_envelope_S4 :
  m_state (self S4_world) = ROLLING /\
  result get_stream_usecs S4_world
    <= Int64.add (m_read (self S4_world)) (m_queued (self S4_world)).
Proof.
  assert (H : m_state (self S4_world) = ROLLING) by (vm_compute; reflexivity).
  split; [exact H | exact (get_stream_usecs_envelope S4_world H)].
Defined.

(** [set_latency(l)] stores [l] when it is positive and the default of
    160000 us otherwise, and touches no other member. *)
Theorem set_latency_spec (w : World) (lat_usecs : Z) :
  exec (set_latency lat_usecs) w =
    set_m_latency (if 0 <? lat_usecs then lat_usecs else 160000) (self w)
  /\ clock (snd (set_latency lat_usecs w)) = clock w.
Proof.
  ti_world w. unfold exec, set_latency.
  destruct (0 <? lat_usecs); split; reflexivity.
Qed.

(** X3. [reset()] leaves the object STOPPED at media time 0 with [Tf = 0] and
    an empty queue, whatever it was before; the latency is kept. *)
Theorem reset_spec (w : World) :
  exec reset w =
    mkTI STOPPED 0%float (now (snd (stop w))) 0 0 0
         (m_latency (self w)) 0 0.
Proof.
  ti_world w. destruct st; ti_unfold; ti_cases;
    try discriminate; reflexivity.
Qed.

(** X4. A post that resumes a PAUSED object (and neither aggregates nor runs
    into an underrun) forces [Tf = 1.0] for that cycle, whatever the
    position error is. *)
Theorem post_buffer_from_paused_forces_unity (w : World) (f : Z) :
  m_state (self w) = PAUSED ->
  Z.quot f 4 <= Int64.sub (now w) (m_t0 (self w)) ->
  let o := self w in
  let t1 := now w in
  let rd := Int64.add (m_read o) (m_queued o) in
  let pos1 :=
    Double.to_int64
      (Double.of_int64 (m_pos0 o)
       + m_Tf o * Double.of_int64 (Int64.sub t1 (m_t0 o)))%float in
  pos1 < rd ->
  exec (post_buffer f) w =
    mkTI ROLLING 1%float t1 pos1 rd f (m_latency o) (m_last o) (m_now_last o).
Proof.
  intros Hst Hdt. cbv zeta. intros Hpos.
  unfold exec. rewrite (post_buffer_paused w f Hst Hdt).
  apply Z.leb_gt in Hpos.
  ti_world w. ti_unfold. ti_unfold_in Hpos.
  replace (2 <=? 1)%float with false by reflexivity.
  replace (1 <? 0.5)%float with false by reflexivity.
  ti_unfold. rewrite Hpos. reflexivity.
Qed.

Lemma post_buffer_from_paused_S5 :
  m_state (self S5_world) = PAUSED /\
  exec (post_buffer 20000) S5_world =
    mkTI ROLLING 1%float 20000 1020000 1500000 20000 100000 1000000 0.
Proof.
  split; [reflexivity |].
  refine (eq_trans
            (post_buffer_from_paused_forces_unity S5_world 20000 eq_refl _ _)
            _).
  - vm_compute. discriminate.
  - vm_compute. reflexivity.
  - vm_compute. reflexivity.
Defined.

(** X5. Overrun: when the update of a ROLLING object computes a time factor of
    2 or more, [Tf] is clamped to 2.0 and the epoch is re-pinned abruptly,
    [pos0 = read - latency] at the clock value [err_overrun] reads last;
    the object stays ROLLING (as long as [read - latency] is below
    [read]). *)
Theorem post_buffer_overrun (w : World) (f : Z) :
  m_state (self w) = ROLLING ->
  Z.quot f 4 <= Int64.sub (now w) (m_t0 (self w)) ->
  let o := self w in
  let t1 := now w in
  let rd := Int64.add (m_read o) (m_queued o) in
  let pos1 :=
    Double.to_int64
      (Double.of_int64 (m_pos0 o)
       + m_Tf o * Double.of_int64 (Int64.sub t1 (m_t0 o)))%float in
  let e := Double.of_int64 (Int64.sub pos1 (Int64.sub rd (m_latency o))) in
  let Tf1 := (1 - e / Double.of_int64 (m_latency o))%float in
  (2 <=? Tf1)%float = true ->
  Int64.sub rd (m_latency o) < rd ->
  exec (post_buffer f) w =
    mkTI ROLLING 2%float
         (now (after_clock_read (after_clock_read w)))
         (Int64.sub rd (m_latency o)) rd f
         (m_latency o) (m_last o) (m_now_last o).
Proof.
  intros Hst Hdt. cbv zeta. intros H2 Hpos.
  unfold exec. rewrite (post_buffer_rolling w f Hst Hdt).
  apply Z.leb_gt in Hpos.
  ti_world w. ti_unfold. ti_unfold_in H2. ti_unfold_in Hpos.
  rewrite H2. ti_unfold. rewrite Hpos. reflexivity.
Qed.

Lemma post_buffer_overrun_S6 :
  m_state (self S6_world) = ROLLING /\
  exec (post_buffer 20000) S6_world =
    mkTI ROLLING 2%float 20002 (-80000) 20000 20000 100000 0 0.
Proof.
  split; [reflexivity |].
  refine (eq_trans (post_buffer_overrun S6_world 20000 eq_refl _ _ _) _).
  - vm_compute. discriminate.
  - vm_compute. reflexivity.
  - vm_compute. reflexivity.
  - vm_compute. reflexivity.
Defined.

(** * Further properties *)

(** ** Wrap-around arithmetic *)

Lemma wrap64_fits (z : Z) : Int64.fits (Int64.wrap64 z).
Proof.
  unfold Int64.fits, Int64.wrap64, Int64.min_signed, Int64.max_signed,
    Int64.half_modulus, Int64.modulus.
  pose proof (Z.mod_pos_bound (z + 9223372036854775808) 18446744073709551616
                ltac:(lia)).
  lia.
Qed.

Lemma wrap64_small (z : Z) : Int64.fits z -> Int64.wrap64 z = z.
Proof.
  unfold Int64.fits, Int64.wrap64, Int64.min_signed, Int64.max_signed,
    Int64.half_modulus, Int64.modulus.
  intros H. rewrite Z.mod_small by lia. lia.
Qed.

Lemma wrap64_add_l (a b : Z) :
  Int64.wrap64 (Int64.wrap64 a + b) = Int64.wrap64 (a + b).
Proof.
  unfold Int64.wrap64. f_equal.
  replace ((a + Int64.half_modulus) mod Int64.modulus - Int64.half_modulus
           + b + Int64.half_modulus)
    with ((a + Int64.half_modulus) mod Int64.modulus + b) by lia.
  rewrite Z.add_mod_idemp_l by (unfold Int64.modulus; lia).
  f_equal. lia.
Qed.

Lemma wrap64_add_r (a b : Z) :
  Int64.wrap64 (a + Int64.wrap64 b) = Int64.wrap64 (a + b).
Proof.
  rewrite (Z.add_comm a (Int64.wrap64 b)), wrap64_add_l.
  f_equal. lia.
Qed.

Lemma wrap64_idem (a : Z) : Int64.wrap64 (Int64.wrap64 a) = Int64.wrap64 a.
Proof.
  pose proof (wrap64_add_l a 0) as H. rewrite !Z.add_0_r in H. exact H.
Qed.

Lemma wrap64_sub_l (a b : Z) :
  Int64.wrap64 (Int64.wrap64 a - b) = Int64.wrap64 (a - b).
Proof. unfold Z.sub. apply wrap64_add_l. Qed.

(** Brings a nest of [int64_t] sums to one wrap-around of a sum in [Z]. *)
Ltac int64_norm :=
  unfold Int64.add, Int64.sub;
  repeat first [rewrite wrap64_add_l | rewrite wrap64_add_r
               | rewrite wrap64_sub_l | rewrite wrap64_idem].

(** ** Construction *)

(** X6. The constructor assigns every member: the object it leaves does not
    depend on what the memory held before.  It is STOPPED at media time
    0 with the default latency of 160000 us, and has read the clock
    once. *)
Theorem constructor_initialises_every_member
  (raw : TimeInterpolator) (c : Clock) :
  exec constructor (mkWorld raw c) =
    mkTI STOPPED 0%float (now (mkWorld raw c)) 0 0 0 160000 0 0
  /\ calls (clock (snd (constructor (mkWorld raw c)))) = S (calls c).
Proof.
  destruct raw as [st Tf t0 pos0 rd q lat lst nlst], c as [smp cnt].
  split; reflexivity.
Qed.

(** ** The read pointer *)

(** X7. [forcibly_update_read_pointer(rp)] makes [read_pointer()] return [rp],
    whatever is queued; the queue itself is left as it is. *)
Theorem forcibly_update_then_read_pointer (w : World) (rp : Z) :
  Int64.fits rp ->
  let w' := snd (forcibly_update_read_pointer rp w) in
  result read_pointer w' = rp /\
  result usecs_queued w' = m_queued (self w) /\
  m_state (self w') = m_state (self w).
Proof.
  intros Hfit. ti_world w. cbv zeta. ti_unfold.
  split; [| split; reflexivity].
  int64_norm. replace (rp - q + q) with rp by lia.
  apply wrap64_small, Hfit.
Qed.

Lemma forcibly_update_then_read_pointer_S2 :
  Int64.fits 123456 /\
  result read_pointer
    (snd (forcibly_update_read_pointer 123456
            (snd (post_buffer 20000 S2_world)))) = 123456.
Proof.
  assert (H : Int64.fits 123456)
    by (unfold Int64.fits, Int64.min_signed, Int64.max_signed; lia).
  split; [exact H |].
  exact (proj1 (forcibly_update_then_read_pointer
                  (snd (post_buffer 20000 S2_world)) 123456 H)).
Defined.

(** ** Pausing twice *)

(** X8. A second [pause()] right after a first one changes nothing and does
    not read the clock: pausing is idempotent, from every state. *)
Theorem pause_twice (w : World) :
  (pause false ;; pause false) w = pause false w.
Proof.
  ti_world w. destruct st; reflexivity.
Qed.

(** ** Every posted microsecond is counted once *)

Lemma accounted_shift (a f x r q : Z) :
  Int64.add r q = Int64.wrap64 a ->
  x = Int64.wrap64 (r + q + f) ->
  x = Int64.wrap64 (a + f).
Proof.
  intros Ha ->. rewrite <- (wrap64_add_l a f), <- Ha.
  int64_norm. reflexivity.
Qed.

Lemma clamp_and_detect_read_pointer (w : World) :
  let o' := self (snd (post_buffer_clamp_and_detect w)) in
  Int64.add (m_read o') (m_queued o')
    = Int64.add (m_read (self w)) (m_queued (self w)) /\
  (m_state (self w) = ROLLING -> m_state o' = STOPPED -> m_queued o' = 0).
Proof.
  ti_world w. cbv zeta.
  destruct st; ti_unfold; ti_cases; (split; [| intros; try discriminate]);
    try reflexivity; int64_norm; f_equal; lia.
Qed.

Lemma post_buffer_accounted (f a : Z) (w : World) :
  accounted a (self w) -> accounted (a + f) (exec (post_buffer f) w).
Proof.
  intros [Ha Hq].
  destruct (aggregates f w) eqn:Hagg.
  - rewrite (post_buffer_takes_aggregation_path w f Hagg).
    split; [| discriminate].
    apply (accounted_shift a f _ _ _ Ha).
    cbn [set_m_queued set_m_state m_read m_queued]. int64_norm.
    f_equal. lia.
  - unfold aggregates in Hagg.
    destruct (m_state (self w)) eqn:Hst; cbn [state_eqb negb andb] in Hagg.
    + specialize (Hq eq_refl).
      ti_world w. cbn [self m_state m_read m_queued] in *. subst st q.
      split; [| discriminate].
      apply (accounted_shift a f _ _ _ Ha). ti_unfold. int64_norm.
      f_equal. lia.
    + unfold Int64.div in Hagg. apply Z.ltb_ge in Hagg.
      unfold exec. rewrite (post_buffer_rolling w f Hst Hagg).
      match goal with
      | |- context [post_buffer_clamp_and_detect ?w1] =>
          destruct (clamp_and_detect_read_pointer w1) as [Hrp Hstop]
      end.
      split; [| exact (Hstop eq_refl)].
      apply (accounted_shift a f _ _ _ Ha). rewrite Hrp.
      cbn [self m_read m_queued]. int64_norm. reflexivity.
    + unfold Int64.div in Hagg. apply Z.ltb_ge in Hagg.
      unfold exec. rewrite (post_buffer_paused w f Hst Hagg).
      match goal with
      | |- context [post_buffer_clamp_and_detect ?w1] =>
          destruct (clamp_and_detect_read_pointer w1) as [Hrp Hstop]
      end.
      split; [| exact (Hstop eq_refl)].
      apply (accounted_shift a f _ _ _ Ha). rewrite Hrp.
      cbn [self m_read m_queued]. int64_norm. reflexivity.
Qed.

(** X9. Whatever path it takes (cold start, aggregation, feedback update,
    overrun, underrun), [post_buffer(f)] advances the read pointer
    [read + queued] by exactly [f], in [int64_t]; the one exception is a
    cold start that finds something queued, which it discards. *)
Theorem post_buffer_advances_read_pointer (w : World) (f : Z) :
  (m_state (self w) = STOPPED -> m_queued (self w) = 0) ->
  result read_pointer (snd (post_buffer f w))
    = Int64.add (result read_pointer w) f.
Proof.
  intros Hq.
  assert (Ha : accounted (m_read (self w) + m_queued (self w)) (self w))
    by (split; [reflexivity | exact Hq]).
  destruct (post_buffer_accounted f _ w Ha) as [H _].
  unfold exec in H. unfold result, read_pointer, bind, get, ret.
  cbn [fst snd]. rewrite H. int64_norm. reflexivity.
Qed.

Lemma post_buffer_advances_read_pointer_late :
  (m_state (self late_post_world) = STOPPED ->
   m_queued (self late_post_world) = 0) /\
  result read_pointer late_post_world = 20000 /\
  result read_pointer (snd (post_buffer 20000 late_post_world)) = 40000.
Proof.
  assert (H : m_state (self late_post_world) = STOPPED ->
              m_queued (self late_post_world) = 0)
    by (intros _; vm_compute; reflexivity).
  split; [exact H | split; [vm_compute; reflexivity |]].
  rewrite (post_buffer_advances_read_pointer late_post_world 20000 H).
  vm_compute. reflexivity.
Defined.

Lemma get_stream_usecs_accounted (a : Z) (w : World) :
  accounted a (self w) -> accounted a (exec get_stream_usecs w).
Proof.
  ti_world w. unfold accounted. cbn [self m_read m_queued m_state].
  intros [Ha Hq].
  destruct st; ti_unfold; ti_cases;
    (split; [| intros; try discriminate; auto]);
    try exact Ha; rewrite <- Ha; int64_norm; f_equal; ring.
Qed.

Lemma pause_accounted (a : Z) (w : World) :
  accounted a (self w) -> accounted a (exec (pause false) w).
Proof.
  ti_world w. unfold accounted. cbn [self m_read m_queued m_state].
  intros [Ha Hq].
  destruct st; ti_unfold; change (0 <=? -1) with false; ti_unfold;
    (split; [| intros; try discriminate; auto]);
    try exact Ha; rewrite <- Ha; int64_norm; f_equal; ring.
Qed.

Lemma seek_accounted (m : Z) (w : World) :
  accounted m (exec (seek m) w).
Proof.
  ti_world w. unfold accounted.
  destruct st; ti_unfold; (split; [| reflexivity]);
    int64_norm; f_equal; lia.
Qed.

Lemma forcibly_update_accounted (rp a : Z) (w : World) :
  accounted a (self w) ->
  accounted rp (exec (forcibly_update_read_pointer rp) w).
Proof.
  ti_world w. unfold accounted. cbn [self m_read m_queued m_state].
  intros [_ Hq]. ti_unfold. split; [| exact Hq].
  int64_norm. f_equal. lia.
Qed.

Lemma run_call_accounted (c : call) (a : Z) (w : World) :
  keeps_account c -> accounted a (self w) ->
  accounted (account a c) (exec (run_call c) w).
Proof.
  intros Hk Ha. destruct c; cbn [run_call account keeps_account] in *.
  - destruct Ha as [H1 H2]. ti_world w. unfold exec, set_latency.
    destruct (0 <? lat_usecs); split; assumption.
  - apply seek_accounted.
  - apply post_buffer_accounted, Ha.
  - exact (get_stream_usecs_accounted a w Ha).
  - destruct flushing_fifo; [contradiction | apply pause_accounted, Ha].
  - contradiction.
  - destruct Ha as [H1 H2]. ti_world w. split; assumption.
  - unfold reset, exec, bind. apply (seek_accounted 0 (snd (stop w))).
  - exact Ha.
  - exact Ha.
  - exact (forcibly_update_accounted rp a w Ha).
Qed.

Lemma run_calls_accounted (cs : list call) :
  forall (a : Z) (w : World),
    Forall keeps_account cs -> accounted a (self w) ->
    accounted (fold_left account cs a) (exec (run_calls cs) w).
Proof.
  induction cs as [| c cs IH]; intros a w Hk Ha.
  - exact Ha.
  - inversion Hk as [| c' cs' Hc Hcs]; subst.
    cbn [run_calls fold_left]. unfold exec, bind.
    apply (IH (account a c) (snd (run_call c w)) Hcs).
    exact (run_call_accounted c a w Hc Ha).
Qed.

(** X10. Through any history that has no flushing pause, the read pointer
    is the last position the object was sent to (0 at construction, the
    argument of [seek], 0 for [reset], the argument of
    [forcibly_update_read_pointer]) plus the sum of all frames posted
    since, in [int64_t]: no underrun, overrun, aggregation or pause loses
    or repeats a posted microsecond.  Nothing is queued while STOPPED. *)
Theorem history_accounts_for_every_post
  (raw : TimeInterpolator) (c : Clock) (cs : list call) :
  Forall keeps_account cs ->
  let w := snd ((constructor ;; run_calls cs) (mkWorld raw c)) in
  result read_pointer w = Int64.wrap64 (fold_left account cs 0) /\
  (m_state (self w) = STOPPED -> result usecs_queued w = 0).
Proof.
  intros Hk. cbv zeta.
  assert (H0 : accounted 0 (self (snd (constructor (mkWorld raw c))))).
  { destruct raw, c. split; reflexivity. }
  pose proof (run_calls_accounted cs 0 _ Hk H0) as [H1 H2].
  unfold exec in H1, H2. unfold bind at 1 2 3.
  split; [exact H1 | exact H2].
Qed.

Lemma history_accounts_for_every_post_sample :
  Forall keeps_account
    [call_post_buffer 20000; call_get_stream_usecs; call_post_buffer 20000;
     call_pause false; call_post_buffer 30000] /\
  result read_pointer
    (snd ((constructor ;;
           run_calls [call_post_buffer 20000; call_get_stream_usecs;
                      call_post_buffer 20000; call_pause false;
                      call_post_buffer 30000])
            (mkWorld raw0 (clock_of 0 [0; 0; 900000; 950000; 960000; 990000]))))
  = 70000.
Proof.
  assert (Hk : Forall keeps_account
                 [call_post_buffer 20000; call_get_stream_usecs;
                  call_post_buffer 20000; call_pause false;
                  call_post_buffer 30000]) by (repeat constructor).
  split; [exact Hk |].
  exact (proj1 (history_accounts_for_every_post raw0
                  (clock_of 0 [0; 0; 900000; 950000; 960000; 990000]) _ Hk)).
Defined.

(** ** Time stands still while STOPPED *)

Lemma zero_product_truncates (x : float) :
  Double.to_int64 (if (0 * x <? 0)%float then 0%float else (0 * x)%float) = 0.
Proof.
  assert (Hn : sf_null (Prim2SF (0 * x)%float)).
  { rewrite mul_spec. apply mul_null_l. rewrite Prim2SF_zero. exact I. }
  rewrite (ltb_zero_of_null _ Hn). apply to_int64_null, Hn.
Qed.

Lemma get_stream_usecs_stopped (w : World) :
  m_state (self w) = STOPPED -> m_Tf (self w) = 0%float ->
  let o := self w in
  let t := Int64.add (m_pos0 o) 0 in
  get_stream_usecs w =
    (t, mkWorld (mkTI STOPPED 0%float (m_t0 o) (m_pos0 o) (m_read o)
                      (m_queued o) (m_latency o) t (now w))
                (clock (after_clock_read w))).
Proof.
  ti_world w. cbn [self m_state m_Tf]. intros -> ->. cbv zeta.
  ti_unfold. rewrite zero_product_truncates.
  ti_cases; reflexivity.
Qed.

Lemma poll_stream_usecs_stopped (n : nat) :
  forall w : World,
    m_state (self w) = STOPPED -> m_Tf (self w) = 0%float ->
    exists w' : World,
      poll_stream_usecs n w = (repeat (Int64.add (m_pos0 (self w)) 0) n, w')
      /\ m_state (self w') = STOPPED /\ m_Tf (self w') = 0%float
      /\ m_pos0 (self w') = m_pos0 (self w)
      /\ m_read (self w') = m_read (self w)
      /\ m_queued (self w') = m_queued (self w).
Proof.
  induction n as [| k IH]; intros w Hst HTf.
  - exists w. repeat split; assumption || reflexivity.
  - pose proof (get_stream_usecs_stopped w Hst HTf) as Hget.
    cbv zeta in Hget.
    set (w1 := mkWorld _ _) in Hget.
    destruct (IH w1 eq_refl eq_refl) as (w' & Hrun & H1 & H2 & H3 & H4 & H5).
    exists w'. repeat split; try assumption.
    cbn [poll_stream_usecs repeat]. unfold bind at 1.
    rewrite Hget. cbn [fst snd]. unfold bind. rewrite Hrun. reflexivity.
Qed.

(** X11. Time stops on an underrun.  Once a read has found the projected
    time at or past the read pointer of a ROLLING object, that read and
    every read after it return the same value, the read pointer, however
    far the clock moves on; the object stays STOPPED and its read pointer
    stays where it was. *)
Theorem underrun_stops_time (w : World) (n : nat) :
  m_state (self w) = ROLLING ->
  Int64.add (m_read (self w)) (m_queued (self w))
    <= t_media_of (now w) (self w) ->
  let rp := Int64.add (m_read (self w)) (m_queued (self w)) in
  let w' := snd (poll_stream_usecs (S n) w) in
  result (poll_stream_usecs (S n)) w = repeat rp (S n) /\
  m_state (self w') = STOPPED /\
  result read_pointer w' = rp.
Proof.
  intros Hst Hrp. cbv zeta.
  pose proof (get_stream_usecs_underrun_t_media w Hst Hrp) as Hget.
  cbv zeta in Hget. set (w1 := mkWorld _ _) in Hget.
  destruct (poll_stream_usecs_stopped n w1 eq_refl eq_refl)
    as (w' & Hrun & H1 & _ & _ & H4 & H5).
  assert (Hsame : Int64.add (m_pos0 (self w1)) 0
                  = Int64.add (m_read (self w)) (m_queued (self w))).
  { subst w1. cbn [self m_pos0]. int64_norm. f_equal. ring. }
  rewrite Hsame in Hrun.
  assert (E : poll_stream_usecs (S n) w
              = (repeat (Int64.add (m_read (self w)) (m_queued (self w)))
                        (S n), w')).
  { cbn [poll_stream_usecs repeat]. unfold bind at 1.
    rewrite Hget. cbn [fst snd]. unfold bind. rewrite Hrun. reflexivity. }
  unfold result. rewrite E. cbn [fst snd].
  split; [reflexivity | split; [exact H1 |]].
  unfold read_pointer, bind, get, ret. cbn [fst snd].
  rewrite H4, H5. exact Hsame.
Qed.

Lemma underrun_stops_time_S4 :
  m_state (self S4_world) = ROLLING /\
  result (poll_stream_usecs 3) S4_world = [20000; 20000; 20000].
Proof.
  assert (H1 : m_state (self S4_world) = ROLLING)
    by (vm_compute; reflexivity).
  assert (H2 : Int64.add (m_read (self S4_world)) (m_queued (self S4_world))
               <= t_media_of (now S4_world) (self S4_world))
    by (vm_compute; discriminate).
  split; [exact H1 |].
  rewrite (proj1 (underrun_stops_time S4_world 2 H1 H2)).
  vm_compute. reflexivity.
Defined.

(** X12. After [seek(m)] on an object that is not ROLLING, every read
    returns [m], whatever the clock says, for as long as nothing is
    posted. *)
Theorem seek_then_reads_return_target (w : World) (m : Z) (n : nat) :
  m_state (self w) <> ROLLING -> Int64.fits m ->
  result (poll_stream_usecs n) (snd (seek m w)) = repeat m n.
Proof.
  intros Hst Hfit. unfold result.
  destruct (m_state (self w)) eqn:E; [| contradiction |].
  - assert (H1 : m_state (self (snd (seek m w))) = STOPPED)
      by (ti_world w; cbn [self m_state] in E; subst st; reflexivity).
    assert (H2 : m_Tf (self (snd (seek m w))) = 0%float)
      by (ti_world w; cbn [self m_state] in E; subst st; reflexivity).
    assert (H3 : m_pos0 (self (snd (seek m w))) = m)
      by (ti_world w; cbn [self m_state] in E; subst st; reflexivity).
    destruct (poll_stream_usecs_stopped n _ H1 H2) as (w' & Hrun & _).
    rewrite Hrun, H3. cbn [fst]. f_equal.
    unfold Int64.add. rewrite Z.add_0_r. apply wrap64_small, Hfit.
  - assert (H1 : m_state (self (snd (seek m w))) = PAUSED)
      by (ti_world w; cbn [self m_state] in E; subst st; reflexivity).
    assert (H3 : m_pos0 (self (snd (seek m w))) = m)
      by (ti_world w; cbn [self m_state] in E; subst st; reflexivity).
    destruct (poll_stream_usecs_paused n _ H1) as (w' & Hrun & _).
    rewrite Hrun, H3. reflexivity.
Qed.

Lemma seek_then_reads_return_target_sample :
  m_state (self (mkWorld raw0 (clock_of 0 [5; 70; 900]))) <> ROLLING /\
  Int64.fits 1500000 /\
  result (poll_stream_usecs 2)
    (snd (seek 1500000 (mkWorld raw0 (clock_of 0 [5; 70; 900]))))
  = [1500000; 1500000].
Proof.
  assert (H1 : m_state (self (mkWorld raw0 (clock_of 0 [5; 70; 900])))
               <> ROLLING) by discriminate.
  assert (H2 : Int64.fits 1500000)
    by (unfold Int64.fits, Int64.min_signed, Int64.max_signed; lia).
  split; [exact H1 | split; [exact H2 |]].
  exact (seek_then_reads_return_target _ 1500000 2 H1 H2).
Defined.

(** ** Bytes to microseconds *)

Lemma checked_div_positive (a b : Z) :
  0 <= a -> 0 < b -> checked_div a b = Some (a / b).
Proof.
  intros Ha Hb. unfold checked_div.
  destruct (Z.eqb_spec b 0); [lia |].
  destruct (Z.eqb_spec a Int64.min_signed) as [E |];
    [unfold Int64.min_signed in E; lia |].
  cbn [andb]. rewrite Z.quot_div_nonneg by lia. reflexivity.
Qed.

Lemma bytes_to_usecs_positive (bytes frame_size sample_rate : Z) :
  0 <= bytes -> 0 < frame_size -> 0 < sample_rate ->
  bytes / frame_size * 1000000 <= Int64.max_signed ->
  bytes_to_usecs bytes frame_size sample_rate
  = Some (bytes / frame_size * 1000000 / sample_rate).
Proof.
  intros Hb Hf Hs Hmax. unfold bytes_to_usecs.
  rewrite checked_div_positive by assumption.
  assert (H0 : 0 <= bytes / frame_size) by (apply Z.div_pos; lia).
  unfold Int64.mul. rewrite wrap64_small.
  - apply checked_div_positive; lia.
  - unfold Int64.fits, Int64.min_signed. lia.
Qed.

(** X13. [bytes_to_usecs] never overstates a duration and understates it by
    less than one frame plus one microsecond: for a byte count that is
    not negative, a positive frame size and sample rate, and a frame
    count below [INT64_MAX / 1000000], the result [u] satisfies
    [u * sample_rate * frame_size <= bytes * 1000000
       < (u + 1) * sample_rate * frame_size + 1000000 * frame_size]. *)
Theorem bytes_to_usecs_bounds (bytes frame_size sample_rate : Z) :
  0 <= bytes -> 0 < frame_size -> 0 < sample_rate ->
  bytes / frame_size * 1000000 <= Int64.max_signed ->
  exists u : Z,
    bytes_to_usecs bytes frame_size sample_rate = Some u /\
    0 <= u /\
    u * sample_rate * frame_size <= bytes * 1000000 /\
    bytes * 1000000
      < (u + 1) * sample_rate * frame_size + 1000000 * frame_size.
Proof.
  intros Hb Hf Hs Hmax.
  rewrite (bytes_to_usecs_positive _ _ _ Hb Hf Hs Hmax).
  eexists. split; [reflexivity |].
  set (F := bytes / frame_size) in *.
  assert (HF0 : 0 <= F) by (apply Z.div_pos; lia).
  pose proof (Z.mul_div_le bytes frame_size Hf) as HF1.
  pose proof (Z.mul_succ_div_gt bytes frame_size Hf) as HF2.
  fold F in HF1, HF2.
  set (u := F * 1000000 / sample_rate).
  assert (Hu0 : 0 <= u) by (apply Z.div_pos; lia).
  pose proof (Z.mul_div_le (F * 1000000) sample_rate Hs) as Hu1.
  pose proof (Z.mul_succ_div_gt (F * 1000000) sample_rate Hs) as Hu2.
  fold u in Hu1, Hu2.
  repeat split; nia.
Qed.

Lemma bytes_to_usecs_bounds_cd_frame :
  (0 <= 4410 /\ 0 < 4 /\ 0 < 44100) /\
  exists u : Z,
    bytes_to_usecs 4410 4 44100 = Some u /\
    0 <= u /\
    u * 44100 * 4 <= 4410 * 1000000 /\
    4410 * 1000000 < (u + 1) * 44100 * 4 + 1000000 * 4.
Proof.
  split; [lia |].
  apply (bytes_to_usecs_bounds 4410 4 44100); try lia.
  vm_compute. discriminate.
Defined.

(** X14. [bytes_to_usecs] is monotone in the byte count, under the same
    conditions: more bytes never convert to fewer microseconds. *)
Theorem bytes_to_usecs_monotone (b1 b2 frame_size sample_rate : Z) :
  0 <= b1 <= b2 -> 0 < frame_size -> 0 < sample_rate ->
  b2 / frame_size * 1000000 <= Int64.max_signed ->
  exists u1 u2 : Z,
    bytes_to_usecs b1 frame_size sample_rate = Some u1 /\
    bytes_to_usecs b2 frame_size sample_rate = Some u2 /\
    u1 <= u2.
Proof.
  intros [H0 H12] Hf Hs Hmax.
  assert (HF : b1 / frame_size <= b2 / frame_size)
    by (apply Z.div_le_mono; lia).
  rewrite (bytes_to_usecs_positive b1) by lia.
  rewrite (bytes_to_usecs_positive b2) by lia.
  do 2 eexists. split; [reflexivity | split; [reflexivity |]].
  apply Z.div_le_mono; lia.
Qed.

Lemma bytes_to_usecs_monotone_sample :
  0 <= 4096 <= 8192 /\
  exists u1 u2 : Z,
    bytes_to_usecs 4096 4 48000 = Some u1 /\
    bytes_to_usecs 8192 4 48000 = Some u2 /\ u1 <= u2.
Proof.
  split; [lia |].
  apply (bytes_to_usecs_monotone 4096 8192 4 48000); try lia.
  vm_compute. discriminate.
Defined.

(** X15. Whole seconds convert exactly: [k * sample_rate] frames of
    [frame_size] bytes give [k * 1000000] microseconds. *)
Theorem bytes_to_usecs_whole_seconds (k frame_size sample_rate : Z) :
  0 <= k -> 0 < frame_size -> 0 < sample_rate ->
  k * sample_rate * 1000000 <= Int64.max_signed ->
  bytes_to_usecs (k * sample_rate * frame_size) frame_size sample_rate
  = Some (k * 1000000).
Proof.
  intros Hk Hf Hs Hmax.
  assert (HF : k * sample_rate * frame_size / frame_size = k * sample_rate)
    by (apply Z.div_mul; lia).
  assert (Hb : 0 <= k * sample_rate * frame_size) by nia.
  assert (Hm : k * sample_rate * frame_size / frame_size * 1000000
               <= Int64.max_signed) by (rewrite HF; exact Hmax).
  rewrite (bytes_to_usecs_positive _ _ _ Hb Hf Hs Hm), HF. f_equal.
  replace (k * sample_rate * 1000000) with (k * 1000000 * sample_rate)
    by ring.
  apply Z.div_mul. lia.
Qed.

Lemma bytes_to_usecs_whole_seconds_sample :
  0 <= 3 /\ bytes_to_usecs (3 * 44100 * 4) 4 44100 = Some (3 * 1000000).
Proof.
  split; [lia |].
  apply (bytes_to_usecs_whole_seconds 3 4 44100); try lia.
  vm_compute. discriminate.
Defined.

(** X16. [bytes_to_usecs] has no result for a frame size or a sample rate of
    zero (the division traps), and has one for every byte count when both
    are positive. *)
Theorem bytes_to_usecs_defined (bytes frame_size sample_rate : Z) :
  (frame_size = 0 \/ sample_rate = 0 ->
   bytes_to_usecs bytes frame_size sample_rate = None) /\
  (0 < frame_size -> 0 < sample_rate ->
   bytes_to_usecs bytes frame_size sample_rate <> None).
Proof.
  unfold bytes_to_usecs, checked_div. split.
  - intros [-> | ->]; [reflexivity |].
    destruct (frame_size =? 0); [reflexivity |].
    destruct ((bytes =? Int64.min_signed) && (frame_size =? -1));
      reflexivity.
  - intros Hf Hs.
    destruct (Z.eqb_spec frame_size 0); [lia |].
    destruct (Z.eqb_spec frame_size (-1)); [lia |].
    rewrite andb_false_r.
    destruct (Z.eqb_spec sample_rate 0); [lia |].
    destruct (Z.eqb_spec sample_rate (-1)); [lia |].
    rewrite andb_false_r. discriminate.
Qed.

(** ** The clock in microseconds *)

Lemma get_system_usecs_value (tv : timespec) :
  timespec_ok tv ->
  Int64.add (Int64.mul (tv_sec tv) 1000000) (Int64.div (tv_nsec tv) 1000)
  = tv_sec tv * 1000000 + tv_nsec tv / 1000.
Proof.
  intros [[Hs0 Hs1] [Hn0 Hn1]].
  unfold Int64.add, Int64.mul, Int64.div.
  rewrite Z.quot_div_nonneg by lia.
  assert (Hq : 0 <= tv_nsec tv / 1000 <= 999999).
  { split; [apply Z.div_pos; lia |].
    apply Z.lt_succ_r, Z.div_lt_upper_bound; lia. }
  rewrite (wrap64_small (tv_sec tv * 1000000))
    by (unfold Int64.fits, Int64.min_signed, Int64.max_signed; lia).
  apply wrap64_small.
  unfold Int64.fits, Int64.min_signed, Int64.max_signed. lia.
Qed.

(** X17. For samples as [clock_gettime] fills them in, [get_system_usecs]
    returns [tv_sec * 1000000 + tv_nsec / 1000] without overflow, never a
    negative value, and a later sample never gives a smaller value: the
    microsecond clock of the class is monotonic as long as the clock of
    the system is. *)
Theorem get_system_usecs_monotone (w : World) :
  let t1 := samples (clock w) (calls (clock w)) in
  let t2 := samples (clock w) (S (calls (clock w))) in
  timespec_ok t1 -> timespec_ok t2 -> timespec_le t1 t2 ->
  now w = tv_sec t1 * 1000000 + tv_nsec t1 / 1000 /\
  0 <= now w /\
  now w <= now (after_clock_read w).
Proof.
  cbv zeta. intros H1 H2 Hle.
  assert (E1 : now w = tv_sec (samples (clock w) (calls (clock w))) * 1000000
                       + tv_nsec (samples (clock w) (calls (clock w))) / 1000).
  { destruct w as [o [smp cnt]]. ti_unfold.
    apply (get_system_usecs_value (smp cnt)), H1. }
  assert (E2 : now (after_clock_read w)
               = tv_sec (samples (clock w) (S (calls (clock w)))) * 1000000
                 + tv_nsec (samples (clock w) (S (calls (clock w)))) / 1000).
  { destruct w as [o [smp cnt]]. ti_unfold.
    apply (get_system_usecs_value (smp (S cnt))), H2. }
  rewrite E2, E1. clear E1 E2.
  destruct H1 as [[Hs1 Hs1'] [Hn1 Hn1']], H2 as [[Hs2 Hs2'] [Hn2 Hn2']].
  set (a := samples (clock w) (calls (clock w))) in *.
  set (b := samples (clock w) (S (calls (clock w)))) in *.
  assert (Ha : 0 <= tv_nsec a / 1000 <= 999999).
  { split; [apply Z.div_pos; lia |].
    apply Z.lt_succ_r, Z.div_lt_upper_bound; lia. }
  assert (Hb : 0 <= tv_nsec b / 1000) by (apply Z.div_pos; lia).
  split; [reflexivity | split; [lia |]].
  destruct Hle as [Hlt | [Heq Hn]].
  - lia.
  - rewrite Heq. apply Z.add_le_mono_l, Z.div_le_mono; lia.
Qed.

Lemma get_system_usecs_monotone_sample :
  let w := mkWorld raw0 (mkClock (fun n => mkTimespec 12 (Z.of_nat n * 999999)) 3) in
  timespec_ok (samples (clock w) 3) /\
  timespec_ok (samples (clock w) 4) /\
  now w = 12002999 /\ now w <= now (after_clock_read w).
Proof.
  cbv zeta.
  assert (H1 : timespec_ok (mkTimespec 12 (3 * 999999)))
    by (unfold timespec_ok; cbn; lia).
  assert (H2 : timespec_ok (mkTimespec 12 (4 * 999999)))
    by (unfold timespec_ok; cbn; lia).
  destruct (get_system_usecs_monotone
              (mkWorld raw0
                 (mkClock (fun n => mkTimespec 12 (Z.of_nat n * 999999)) 3))
              H1 H2 ltac:(right; cbn; lia)) as (E & _ & Hle).
  split; [exact H1 | split; [exact H2 | split; [| exact Hle]]].
  rewrite E. reflexivity.
Defined.

(** ** The transitions [set_state] accepts *)

(** X18. [set_state] never refuses: it always leaves the object in the state
    asked for.  Its error-checking block is silent exactly when the state
    does not change or the change is an edge of the state chart; every
    call the methods make is of that kind: [(STOPPED, STOP)] from any
    state in [pause(true)], [(PAUSED, PAUSE)] from ROLLING in [pause],
    [(ROLLING, POST_BUFFER)] from PAUSED or STOPPED in [post_buffer], and
    [(STOPPED, ERR_UNDERRUN)] from ROLLING in [err_underrun]. *)
Theorem set_state_checks (cur s : state_t) (i : input_t) :
  (forall w : World, m_state (exec (set_state s i) w) = s) /\
  (set_state_errors cur s i = [] <-> cur = s \/ legal_transition cur i s) /\
  set_state_errors cur STOPPED STOP = [] /\
  set_state_errors ROLLING PAUSED PAUSE = [] /\
  set_state_errors PAUSED ROLLING POST_BUFFER = [] /\
  set_state_errors STOPPED ROLLING POST_BUFFER = [] /\
  set_state_errors ROLLING STOPPED ERR_UNDERRUN = [].
Proof.
  split; [| split].
  - intros w. ti_world w. destruct st, s; reflexivity.
  - destruct cur, s, i; cbn; split; intros H;
      try reflexivity; try discriminate;
      try (left; reflexivity); try (right; constructor);
      destruct H as [H | H]; try discriminate; inversion H.
  - destruct cur; repeat split.
Qed.

(** ** Exact conversions below [2^53] *)

Section ExactFacts.

Implicit Types (p k mz : positive) (ez d : Z) (s : bool).

Lemma Zpos_iter_xO p k : Zpos (Pos.iter xO p k) = Zpos p * 2 ^ Zpos k.
Proof.
  induction k as [| k IH] using Pos.peano_ind.
  - cbn [Pos.iter]. lia.
  - rewrite Pos.iter_succ, Pos2Z.inj_xO, IH, Pos2Z.inj_succ.
    rewrite Z.pow_succ_r by lia. ring.
Qed.

Lemma shr_fexp_canonical mz ez (l : location) :
  Zpos (digits2_pos mz) = 53 -> -1074 <= ez ->
  shr_fexp prec emax (Zpos mz) ez l = (shr_record_of_loc (Zpos mz) l, ez).
Proof.
  intros Hd He. unfold shr_fexp. rewrite fexp_eq. cbn [Zdigits2].
  replace (Z.max (Zpos (digits2_pos mz) + ez - 53) (-1074) - ez) with 0
    by lia.
  reflexivity.
Qed.

Lemma round_aux_canonical s mz ez :
  Zpos (digits2_pos mz) = 53 -> -52 <= ez <= 0 ->
  binary_round_aux prec emax s (Zpos mz) ez loc_Exact = S754_finite s mz ez.
Proof.
  intros Hd He. unfold binary_round_aux.
  rewrite shr_fexp_canonical by lia.
  cbn [shr_record_of_loc shr_m loc_of_shr_record round_nearest_even].
  rewrite shr_fexp_canonical by lia.
  cbn [shr_record_of_loc shr_m].
  replace (ez <=? emax - prec) with true
    by (symmetry; apply Z.leb_le; change (emax - prec) with 971; lia).
  reflexivity.
Qed.

Lemma normalize_exact p :
  Zpos p < 2 ^ 53 ->
  holds_integer (binary_normalize prec emax (Zpos p) 0 false) false (Zpos p).
Proof.
  intros Hp. cbn [binary_normalize]. unfold binary_round.
  rewrite fexp_eq. unfold shl_align.
  destruct (digits2_pos_bounds p) as [Hlo Hhi].
  assert (Hd : 1 <= Zpos (digits2_pos p) <= 53).
  { split; [lia |].
    assert (H : 2 ^ (Zpos (digits2_pos p) - 1) < 2 ^ 53) by lia.
    apply Z.pow_lt_mono_r_iff in H; lia. }
  destruct (Z.max (Zpos (digits2_pos p) + 0 - 53) (-1074) - 0)
    as [| k | k] eqn:Ek.
  - assert (E : Zpos (digits2_pos p) = 53) by lia.
    rewrite round_aux_canonical by lia.
    exists p, 0. repeat split; first [lia | cbn; lia].
  - lia.
  - assert (E : Zpos (digits2_pos (Pos.iter xO p k)) = 53)
      by (rewrite digits2_pos_iter_xO; lia).
    rewrite round_aux_canonical by lia.
    exists (Pos.iter xO p k), (Z.max (Zpos (digits2_pos p) + 0 - 53) (-1074)).
    repeat split; try lia.
    rewrite Zpos_iter_xO. f_equal. f_equal. lia.
Qed.

Lemma one_times_integer (x : float) s (v : Z) :
  holds_integer (Prim2SF x) s v -> (1 * x)%float = x.
Proof.
  intros (mz & ez & Hx & Hd & He & _).
  apply Prim2SF_inj. rewrite mul_spec, Hx.
  change (Prim2SF 1) with (S754_finite false 4503599627370496 (-52)).
  unfold SF64mul. cbn [SFmul xorb Pos.mul].
  unfold binary_round_aux at 1. unfold shr_fexp at 1. rewrite fexp_eq.
  cbn [Zdigits2 digits2_pos shr_record_of_loc].
  match goal with
  | |- context [shr ?r ?e ?n] =>
      replace n with 52 by (rewrite !Pos2Z.inj_succ, Hd; lia)
  end.
  cbn [shr iter_pos shr_1 orb shr_m loc_of_shr_record round_nearest_even].
  rewrite shr_fexp_canonical by lia.
  cbn [shr_record_of_loc shr_m].
  replace (-52 + ez + 52 <=? emax - prec) with true
    by (symmetry; apply Z.leb_le; change (emax - prec) with 971; lia).
  f_equal. lia.
Qed.

(** [double(d)] holds [d] exactly for [0 < d < 2^53]. *)
Lemma of_int64_exact d :
  0 < d < 2 ^ 53 -> holds_integer (Prim2SF (Double.of_int64 d)) false d.
Proof.
  intros [Hd0 Hd1]. unfold Double.of_int64.
  destruct (Z.eqb_spec d Int64.min_signed) as [E | _];
    [unfold Int64.min_signed in E; lia |].
  destruct (Z.ltb_spec d 0) as [E | _]; [lia |].
  unfold Double.of_magnitude. rewrite of_uint63_spec, Uint63.of_Z_spec.
  rewrite Z.mod_small
    by (change Uint63.wB with 9223372036854775808;
        change (2 ^ 53) with 9007199254740992 in Hd1; lia).
  destruct d as [| p | p]; [lia | | lia].
  apply normalize_exact. exact Hd1.
Qed.

Lemma to_int64_integer (x : float) (v : Z) :
  0 < v < 2 ^ 53 -> holds_integer (Prim2SF x) false v ->
  Double.to_int64 x = v.
Proof.
  intros Hv (mz & ez & Hx & _ & He & Hval).
  unfold Double.to_int64. rewrite Hx. unfold Double.truncate.
  assert (Ht : (if 0 <=? ez then Z.shiftl (Zpos mz) ez
                else Z.shiftr (Zpos mz) (- ez)) = v).
  { rewrite Hval. destruct (Z.leb_spec 0 ez).
    - assert (ez = 0) by lia. subst ez. cbn. lia.
    - rewrite Z.shiftr_div_pow2 by lia.
      apply Z.div_mul. apply Z.pow_nonzero; lia. }
  rewrite Ht. change (2 ^ 53) with 9007199254740992 in Hv.
  unfold Int64.min_signed, Int64.max_signed.
  destruct (Z.ltb_spec v (-9223372036854775808)); [lia |].
  destruct (Z.ltb_spec 9223372036854775807 v); [lia | reflexivity].
Qed.

(** At a time factor of one, the scaled and clamped clock difference of
    [get_stream_usecs] is the difference itself, or zero when it is
    negative. *)
Lemma unity_scale_exact d :
  d < 2 ^ 53 ->
  Double.to_int64
    (if (1 * Double.of_int64 d <? 0)%float then 0%float
     else (1 * Double.of_int64 d)%float)
  = Z.max d 0.
Proof.
  intros Hd.
  destruct (Z.lt_trichotomy d 0) as [Hneg | [-> | Hpos]].
  - rewrite Z.max_r by lia. apply to_int64_clamped_signed_true.
    rewrite mul_spec.
    apply (mul_signed false true); [reflexivity |].
    pose proof (of_int64_signed d) as Hs.
    replace (d <? 0) with true in Hs by (symmetry; apply Z.ltb_lt; lia).
    exact Hs.
  - reflexivity.
  - rewrite Z.max_l by lia.
    pose proof (of_int64_exact d ltac:(lia)) as Hx.
    rewrite (one_times_integer _ _ _ Hx).
    rewrite (ltb_zero_of_signed_false (Double.of_int64 d)).
    + apply to_int64_integer; [lia | exact Hx].
    + destruct Hx as (mz & ez & -> & _). reflexivity.
Qed.



End ExactFacts.

(** ** Reads at a time factor of one *)

Lemma t_media_of_unity (t : Z) (o : TimeInterpolator) :
  m_Tf o = 1%float -> Int64.sub t (m_t0 o) < 2 ^ 53 ->
  t_media_of t o = Int64.add (m_pos0 o) (Z.max (Int64.sub t (m_t0 o)) 0).
Proof.
  intros HTf Hd. unfold t_media_of. cbv zeta. rewrite HTf.
  f_equal. apply unity_scale_exact, Hd.
Qed.

(** A read that does not run into the read pointer returns [t_media] and
    records it; no other member changes. *)
Lemma get_stream_usecs_plain (w : World) :
  m_state (self w) <> PAUSED ->
  (m_state (self w) = ROLLING ->
   t_media_of (now w) (self w)
     < Int64.add (m_read (self w)) (m_queued (self w))) ->
  let o := self w in
  let t := t_media_of (now w) o in
  get_stream_usecs w =
    (t, mkWorld (mkTI (m_state o) (m_Tf o) (m_t0 o) (m_pos0 o) (m_read o)
                      (m_queued o) (m_latency o) t (now w))
                (clock (after_clock_read w))).
Proof.
  ti_world w. cbn [self m_state m_read m_queued]. intros Hst Hlt. cbv zeta.
  unfold t_media_of in *. revert Hlt. ti_unfold. intros Hlt.
  destruct st; [| | contradiction].
  - ti_cases; reflexivity.
  - specialize (Hlt eq_refl). apply Z.leb_gt in Hlt. rewrite Hlt.
    reflexivity.
Qed.

(** X19. At a time factor of exactly one (after a cold start, a [seek]
    while ROLLING, or [resume]) the interpolator follows the system clock
    microsecond for microsecond: a read returns [pos0 + (now - t0)], or
    [pos0] when the clock is behind [t0], and the read pointer once a
    ROLLING object has reached it. *)
Theorem unity_read_tracks_clock (w : World) :
  m_Tf (self w) = 1%float ->
  m_state (self w) <> PAUSED ->
  Int64.sub (now w) (m_t0 (self w)) < 2 ^ 53 ->
  let o := self w in
  let t := Int64.add (m_pos0 o) (Z.max (Int64.sub (now w) (m_t0 o)) 0) in
  let rp := Int64.add (m_read o) (m_queued o) in
  result get_stream_usecs w =
    if (rp <=? t) && state_eqb (m_state o) ROLLING then rp else t.
Proof.
  intros HTf Hst Hd. cbv zeta.
  rewrite <- (t_media_of_unity (now w) (self w) HTf Hd).
  unfold result.
  destruct (Z.leb_spec (Int64.add (m_read (self w)) (m_queued (self w)))
              (t_media_of (now w) (self w))) as [Hle | Hgt].
  - destruct (m_state (self w)) eqn:E; cbn [state_eqb andb].
    + rewrite get_stream_usecs_plain;
        [reflexivity | rewrite E; discriminate | rewrite E; discriminate].
    + rewrite (get_stream_usecs_underrun_t_media w E Hle). reflexivity.
    + contradiction.
  - cbn [andb]. rewrite get_stream_usecs_plain;
      [reflexivity | exact Hst | intros _; exact Hgt].
Qed.

Lemma unity_read_tracks_clock_S2 :
  m_Tf (self S2_world) = 1%float /\
  m_state (self S2_world) <> PAUSED /\
  Int64.sub (now S2_world) (m_t0 (self S2_world)) < 2 ^ 53 /\
  result get_stream_usecs S2_world = -10000.
Proof.
  assert (H1 : m_Tf (self S2_world) = 1%float) by (vm_compute; reflexivity).
  assert (H2 : m_state (self S2_world) <> PAUSED)
    by (vm_compute; discriminate).
  assert (H3 : Int64.sub (now S2_world) (m_t0 (self S2_world)) < 2 ^ 53)
    by (vm_compute; reflexivity).
  split; [exact H1 | split; [exact H2 | split; [exact H3 |]]].
  rewrite (unity_read_tracks_clock S2_world H1 H2 H3).
  vm_compute. reflexivity.
Defined.

(** X20. Monotonic clock.  Two successive reads of a ROLLING object at a time
    factor of one, the second at a clock value that is not earlier, never
    go backwards: the second value is at least the first (reads within
    [2^53] us of the epoch, positions within [int64_t]). *)
Theorem unity_reads_are_monotone (w : World) :
  m_state (self w) = ROLLING ->
  m_Tf (self w) = 1%float ->
  let o := self w in
  let d1 := Int64.sub (now w) (m_t0 o) in
  let d2 := Int64.sub (now (after_clock_read w)) (m_t0 o) in
  0 <= d1 <= d2 -> d2 < 2 ^ 53 ->
  Int64.fits (m_pos0 o) -> Int64.fits (m_pos0 o + d2) ->
  exists r1 r2 : Z,
    result (poll_stream_usecs 2) w = [r1; r2] /\ r1 <= r2.
Proof.
  intros Hst HTf. cbv zeta. intros [H0 H12] H53 Hp0 Hp2.
  exists (fst (get_stream_usecs w)),
         (fst (get_stream_usecs (snd (get_stream_usecs w)))).
  split; [reflexivity |].
  assert (Ht1 : t_media_of (now w) (self w)
                = m_pos0 (self w) + Int64.sub (now w) (m_t0 (self w))).
  { rewrite t_media_of_unity by (assumption || lia).
    rewrite Z.max_l by lia. apply wrap64_small.
    unfold Int64.fits in *. lia. }
  destruct (Z.le_gt_cases
              (Int64.add (m_read (self w)) (m_queued (self w)))
              (t_media_of (now w) (self w))) as [Hle | Hgt].
  - rewrite (get_stream_usecs_underrun_t_media w Hst Hle). cbn [fst snd].
    rewrite get_stream_usecs_stopped by reflexivity. cbn [fst self m_pos0].
    int64_norm. rewrite Z.add_0_r. unfold Int64.add. lia.
  - rewrite (get_stream_usecs_plain w); [| rewrite Hst; discriminate
                                         | intros _; exact Hgt].
    cbn [fst snd].
    match goal with
    | |- _ <= fst (get_stream_usecs ?w1) =>
        assert (Ht2 : t_media_of (now w1) (self w1)
                      = m_pos0 (self w)
                        + Int64.sub (now (after_clock_read w))
                                    (m_t0 (self w)));
        [ rewrite t_media_of_unity by (cbn [self m_Tf m_t0]; assumption);
          cbn [self m_pos0 m_t0];
          change (now w1) with (now (after_clock_read w));
          rewrite Z.max_l by lia; apply wrap64_small; exact Hp2
        | destruct (Z.le_gt_cases
                      (Int64.add (m_read (self w1)) (m_queued (self w1)))
                      (t_media_of (now w1) (self w1))) as [Hle2 | Hgt2];
          [ rewrite (get_stream_usecs_underrun_t_media w1 Hst Hle2);
            cbn [fst self m_read m_queued]; lia
          | rewrite (get_stream_usecs_plain w1);
            [ cbn [fst]; rewrite Ht2, Ht1; lia
            | cbn [self m_state]; rewrite Hst; discriminate
            | intros _; exact Hgt2 ] ] ]
    end.
Qed.

Lemma unity_reads_are_monotone_sample :
  m_state (self unity_world) = ROLLING /\
  result (poll_stream_usecs 2) unity_world = [10; 25] /\
  exists r1 r2 : Z,
    result (poll_stream_usecs 2) unity_world = [r1; r2] /\ r1 <= r2.
Proof.
  split; [reflexivity | split; [vm_compute; reflexivity |]].
  apply (unity_reads_are_monotone unity_world); try reflexivity.
  - vm_compute. split; discriminate.
  - unfold Int64.fits. vm_compute. split; discriminate.
  - unfold Int64.fits. vm_compute. split; discriminate.
Defined.

(** ** A clock behind the epoch *)

(** X21. When the clock reads at or before [t0] (the difference is clamped
    to zero) and the time factor is not negative, a read of an object
    that is not PAUSED returns [pos0]: the reported time never runs
    backwards from the epoch.  (A ROLLING object whose [pos0] has reached
    the read pointer underruns instead.) *)
Theorem read_before_epoch_returns_pos0 (w : World) :
  m_state (self w) <> PAUSED ->
  (0 <=? m_Tf (self w))%float = true ->
  Int64.sub (now w) (m_t0 (self w)) <= 0 ->
  Int64.fits (m_pos0 (self w)) ->
  (m_state (self w) = ROLLING ->
   m_pos0 (self w) < Int64.add (m_read (self w)) (m_queued (self w))) ->
  result get_stream_usecs w = m_pos0 (self w).
Proof.
  intros Hst HTf Hd Hfit Hrp.
  assert (Ht : t_media_of (now w) (self w) = m_pos0 (self w)).
  { rewrite <- (projected_time_is_t_media _ _ HTf). unfold projected_time.
    rewrite Z.max_r by lia.
    rewrite (to_int64_null (m_Tf (self w) * Double.of_int64 0)%float).
    - unfold Int64.add. rewrite Z.add_0_r. apply wrap64_small, Hfit.
    - rewrite mul_spec. apply mul_null_r. rewrite of_int64_zero. exact I. }
  unfold result. rewrite get_stream_usecs_plain.
  - cbn [fst]. exact Ht.
  - exact Hst.
  - intros Hr. rewrite Ht. exact (Hrp Hr).
Qed.

Lemma read_before_epoch_sample :
  let w := mkWorld (mkTI ROLLING 0.5%float 700 (-10000) 20000 0 100000 0 0)
                   (clock_of 0 [650]) in
  Int64.sub (now w) (m_t0 (self w)) <= 0 /\
  result get_stream_usecs w = -10000.
Proof.
  cbv zeta. split; [vm_compute; discriminate |].
  apply (read_before_epoch_returns_pos0
           (mkWorld (mkTI ROLLING 0.5%float 700 (-10000) 20000 0 100000 0 0)
                    (clock_of 0 [650]))).
  - discriminate.
  - reflexivity.
  - vm_compute. discriminate.
  - unfold Int64.fits. vm_compute. split; discriminate.
  - intros _. vm_compute. reflexivity.
Defined.
